(** * Uptick employee roster: a shallow embedding of [EmployeeDashboard.tsx]

    The development follows the source file top to bottom: enums and
    interfaces, the [isEmployee] guard, the utilities ([sortByKey],
    [loadJSON], [daysBetween], [toCSV]), the seed data, and then the
    state and handlers of the [EmployeeDashboard] component (the employee
    initialiser, [filtered], the metrics, [remove], [upsert],
    [exportJSON], [exportCSV]).

    Conventions.
    - A JavaScript string is a Rocq [string]; no property below depends on
      the width of a character.
    - Functions of the host platform whose result depends on the engine or
      the locale ([String.prototype.localeCompare], [toLowerCase], [trim],
      [JSON.parse], [JSON.stringify], [Date] parsing) are [Variable]s of
      the section that uses them, so every theorem holds for whatever the
      platform computes.  [Module Host] gives small concrete instances,
      used to run the definitions on concrete inputs.
    - Impure inputs of a handler ([uid()], the answer to [confirm], the
      current date) are arguments of its model; what a handler shows or
      writes is returned as a list of [Effect]s. *)

From Stdlib Require Import String Ascii List ZArith Bool Lia QArith.
From Stdlib Require Import DecimalString Permutation Sorted.
Import ListNotations.
Open Scope string_scope.
Open Scope Z_scope.

Set Implicit Arguments.

(** ** Types and enums *)

Inductive Department : Type :=
  Engineering | HR | Sales | Marketing | Finance | Operations.

Inductive Role : Type :=
  | Engineer | SeniorEngineer | Manager | HRManager | Recruiter
  | SalesRep | Marketer | Accountant | OperationsAnalyst.

Inductive Status : Type := Active | Probation | OnLeave | Inactive.

Inductive ContractType : Type := Permanent | Contract | Intern.

(** The string value each enum member has at run time. *)
Definition Department_value (d : Department) : string :=
  match d with
  | Engineering => "Engineering" | HR => "HR" | Sales => "Sales"
  | Marketing => "Marketing" | Finance => "Finance"
  | Operations => "Operations"
  end.

Definition Role_value (r : Role) : string :=
  match r with
  | Engineer => "Engineer" | SeniorEngineer => "Senior Engineer"
  | Manager => "Manager" | HRManager => "HR Manager"
  | Recruiter => "Recruiter" | SalesRep => "Sales Rep"
  | Marketer => "Marketer" | Accountant => "Accountant"
  | OperationsAnalyst => "Operations Analyst"
  end.

Definition Status_value (s : Status) : string :=
  match s with
  | Active => "Active" | Probation => "Probation"
  | OnLeave => "On Leave" | Inactive => "Inactive"
  end.

Definition ContractType_value (c : ContractType) : string :=
  match c with
  | Permanent => "Permanent" | Contract => "Contract" | Intern => "Intern"
  end.

(** [ContactInfo = PhoneEmail & EmergencyContact]. *)
Record ContactInfo : Type := mkContact {
  phone : string;
  email : string;
  emergencyName : string;
  emergencyPhone : string
}.

(** [supervisor?] and [photoUrl?] are optional properties: [None] is an
    absent property. *)
Record EmployeeBase : Type := mkBase {
  name : string;
  employeeId : string;
  department : Department;
  role : Role;
  supervisor : option string;
  status : Status;
  contractType : ContractType;
  hireDate : string;
  contact : ContactInfo;
  photoUrl : option string
}.

(** [interface Employee extends EmployeeBase { id: string }]. *)
Record Employee : Type := mkEmployee {
  id : string;
  base :> EmployeeBase
}.

(** ** Run-time values read back from storage

    What [JSON.parse] returns.  An object is the list of its own
    properties in insertion order (keys pairwise distinct); a number is a
    rational, which covers every finite double. *)
#[warnings="-register-all"]
Inductive json : Type :=
  | JNull
  | JBool (b : bool)
  | JNum (x : Q)
  | JStr (s : string)
  | JArr (items : list json)
  | JObj (props : list (string * json)).

(** The result of reading a property: [None] is [undefined]. *)
Fixpoint getOwn (k : string) (props : list (string * json)) : option json :=
  match props with
  | [] => None
  | (k', v) :: rest => if String.eqb k k' then Some v else getOwn k rest
  end.

(** [typeof v === "string"], [undefined] included. *)
Definition typeof_string (v : option json) : bool :=
  match v with Some (JStr _) => true | _ => false end.

(** [typeof v === "object"]: objects, arrays and [null]. *)
Definition typeof_object (v : option json) : bool :=
  match v with
  | Some JNull | Some (JArr _) | Some (JObj _) => true
  | _ => false
  end.

(** JavaScript truthiness of a parsed value. *)
Definition truthy (v : json) : bool :=
  match v with
  | JNull => false
  | JBool b => b
  | JNum x => negb (Qeq_bool x 0)
  | JStr s => negb (String.eqb s EmptyString)
  | JArr _ | JObj _ => true
  end.

(** Reading one of the guard's nine property names from a value that is
    an object in the sense of [typeof].  None of those names is an index,
    [length] or inherited from [Array.prototype] / [Object.prototype], so
    an array has none of them. *)
Definition prop (obj : json) (k : string) : option json :=
  match obj with
  | JObj props => getOwn k props
  | _ => None
  end.

(** The type guard. *)
Definition isEmployee (obj : json) : bool :=
  if negb (truthy obj) || negb (typeof_object (Some obj)) then false
  else
    typeof_string (prop obj "id") &&
    typeof_string (prop obj "name") &&
    typeof_string (prop obj "employeeId") &&
    typeof_string (prop obj "department") &&
    typeof_string (prop obj "role") &&
    typeof_string (prop obj "status") &&
    typeof_string (prop obj "contractType") &&
    typeof_string (prop obj "hireDate") &&
    typeof_object (prop obj "contact").

(** An [Employee] as the object [JSON.stringify] sees: the keys in the
    order of the object literals of the source, an absent optional
    property left out. *)
Definition optional (k : string) (v : option string) : list (string * json) :=
  match v with
  | Some s => [(k, JStr s)]
  | None => []
  end.

Definition ContactInfo_toJSON (c : ContactInfo) : json :=
  JObj [("phone", JStr (phone c)); ("email", JStr (email c));
        ("emergencyName", JStr (emergencyName c));
        ("emergencyPhone", JStr (emergencyPhone c))].

Definition Employee_toJSON (e : Employee) : json :=
  JObj ([("id", JStr (id e)); ("name", JStr (name e));
         ("employeeId", JStr (employeeId e));
         ("department", JStr (Department_value (department e)));
         ("role", JStr (Role_value (role e)))]
        ++ optional "supervisor" (supervisor e)
        ++ [("status", JStr (Status_value (status e)));
            ("contractType", JStr (ContractType_value (contractType e)));
            ("hireDate", JStr (hireDate e));
            ("contact", ContactInfo_toJSON (contact e))]
        ++ optional "photoUrl" (photoUrl e)).

(** ** Effects and completions *)

(** What a handler does to the outside world. *)
Inductive Effect : Type :=
  | SetItem (key value : string)      (* localStorage.setItem *)
  | Alert (msg : string)              (* alert(msg) *)
  | Confirm (msg : string)            (* confirm(msg) *)
  | PreventDefault                    (* e.preventDefault() *)
  | Download (fileName mimeType content : string).  (* Blob + a.click() *)

(** How an evaluation ends: with a value, or with a thrown [TypeError]. *)
Inductive completion (A : Type) : Type :=
  | Normal (a : A)
  | Throw (typeError : string).
Arguments Throw {A} typeError.

(** ** Utilities *)

(** [Array.prototype.sort(comparefn)] on a copy of the array.  ECMAScript
    requires the sort to be stable, and for a consistent comparator the
    result is then determined: the elements in non-decreasing order,
    elements that compare equal in their original order.  Insertion from
    the right computes that list.  For a comparator that is not consistent
    the order is left to the engine; the model is then one admissible
    engine only. *)
Section ArraySort.
Variable T : Type.
Variable comparefn : T -> T -> Z.

Fixpoint insert (x : T) (sorted : list T) : list T :=
  match sorted with
  | [] => [x]
  | y :: rest =>
      if comparefn x y <=? 0 then x :: sorted else y :: insert x rest
  end.

Definition Array_sort (arr : list T) : list T := fold_right insert [] arr.
End ArraySort.

Inductive SortDir : Type := asc | desc.

(** The generic sorter, for a key whose values are strings (every key the
    component passes is one): [va === vb] short-cuts to 0, two strings go
    to [localeCompare]; the fallback comparison is not reached. *)
Section SortByKey.
Variable localeCompare : string -> string -> Z.
Variable T : Type.
Variable key : T -> string.

Definition compareByKey (a b : T) : Z :=
  let va := key a in
  let vb := key b in
  if String.eqb va vb then 0 else localeCompare va vb.

Definition sortByKey (arr : list T) (dir : SortDir) : list T :=
  let sorted := Array_sort compareByKey arr in
  match dir with
  | asc => sorted
  | desc => rev sorted
  end.
End SortByKey.

Module LS_KEYS.
Definition employees : string := "uptick.employees".
Definition theme : string := "uptick.theme".
Definition role : string := "uptick.role".
End LS_KEYS.

(** [localStorage]: [None] is the [null] that [getItem] returns for a key
    that was never set. *)
Definition Storage : Type := string -> option string.

Section Persistence.
(** [JSON.parse]: [None] stands for the [SyntaxError] it throws. *)
Variable JSON_parse : string -> option json.
(** [JSON.stringify(value)]. *)
Variable JSON_stringify : json -> string.

Definition saveJSON (key : string) (value : json) : list Effect :=
  [SetItem key (JSON_stringify value)].

(** [!s] holds for [null] and for the empty string; a throwing
    [JSON.parse] lands in the [catch]. *)
Definition loadJSON (ls : Storage) (key : string) (fallback : json) : json :=
  match ls key with
  | None => fallback
  | Some s =>
      if String.eqb s EmptyString then fallback
      else match JSON_parse s with
           | Some parsed => parsed
           | None => fallback
           end
  end.
End Persistence.

(** [daysBetween]: [Date_getTime iso] is [new Date(iso).getTime()], in
    milliseconds, [None] for the [NaN] of an invalid date.  Time values are
    integers, so [b - a] is one too, and [Math.round(x / d)] is the
    largest integer not above [x / d + 1/2]: a half rounds up.  The result
    [None] is [NaN].  The source divides in binary64: its result is this
    integer as long as [b - a] is at most 2^53 in absolute value (a span of
    some 285,000 years); beyond that the binary64 quotient can fall on the
    other side of a half and the source be one day off.  Whether the result
    is at most 30 is the same in both. *)
Definition msPerDay : Z := 1000 * 60 * 60 * 24.

Definition Math_round_div (x d : Z) : Z := (2 * x + d) / (2 * d).

Section Dates.
Variable Date_getTime : string -> option Z.

Definition daysBetween (aIso bIso : string) : option Z :=
  match Date_getTime aIso, Date_getTime bIso with
  | Some a, Some b => Some (Math_round_div (b - a) msPerDay)
  | _, _ => None
  end.
End Dates.

(** [toCSV].  A row object is the list of its own properties in insertion
    order; [Object.keys] returns the keys in that order (no key is an
    integer index), and [r[h]] is [None] when the row has no such
    property.  [exportCSV] builds rows whose values are all strings. *)
Definition Row : Type := list (string * string).

Definition Object_keys (r : Row) : list string := map fst r.

Fixpoint get (r : Row) (h : string) : option string :=
  match r with
  | [] => None
  | (k, v) :: rest => if String.eqb h k then Some v else get rest h
  end.

Definition dquote : ascii := ascii_of_nat 34.
Definition comma : string := ",".
Definition newline : string := String (ascii_of_nat 10) EmptyString.

(** The global replace in [esc]: every double-quote character becomes
    two. *)
Fixpoint doubleQuotes (s : string) : string :=
  match s with
  | EmptyString => EmptyString
  | String c rest =>
      if Ascii.eqb c dquote
      then String dquote (String dquote (doubleQuotes rest))
      else String c (doubleQuotes rest)
  end.

(** [esc]: the text of [v], empty for [undefined], with its quotes
    doubled, inside a pair of quotes. *)
Definition esc (v : option string) : string :=
  let text := match v with Some s => s | None => EmptyString end in
  String dquote (doubleQuotes text ++ String dquote EmptyString).

Definition toCSV (rows : list Row) : string :=
  match rows with
  | [] => EmptyString
  | first :: _ =>
      let headers := Object_keys first in
      String.concat newline
        (String.concat comma headers
         :: map (fun r => String.concat comma (map (fun h => esc (get r h)) headers))
                rows)
  end.

(** ** Demo seed data

    [uid()] and [Date.now()] are read when the module is loaded; the three
    ids and the three ISO texts of "20, 120 and 60 days ago" are the
    arguments. *)
Definition SEED (uid1 uid2 uid3 ago20 ago120 ago60 : string) : list Employee :=
  [ mkEmployee uid1
      (mkBase "Odesomi Kamorudeen" "EMP-001" Engineering Engineer
         (Some "Sam Carter") Active Permanent ago20
         (mkContact "+2347069411772" "kodesomi93@gmail.com" "kodesomi"
            "+2348022347871")
         (Some "https://i.pravatar.cc/100?img=1"));
    mkEmployee uid2
      (mkBase "Bolagbade Latunde" "EMP-002" HR HRManager
         (Some "—") Active Permanent ago120
         (mkContact "+234706884221" "latunde_2@gmail.com" "Lilly Chen"
            "+23493445678")
         (Some "https://i.pravatar.cc/100?img=5"));
    mkEmployee uid3
      (mkBase "Zara Bello" "EMP-003" Marketing Marketer
         (Some "Michael Chen") Probation Contract ago60
         (mkContact "+234-701-0000" "zarab@gmail.com" "Faruq Bello"
            "+23420234461")
         (Some "https://i.pravatar.cc/100?img=8")) ].

(** ** The component: loading the collection *)

Section Initialiser.
Variable JSON_parse : string -> option json.
Variable JSON_stringify : json -> string.
(** The value of [SEED] in this run. *)
Variable seed : list Employee.

Definition seed_json : list json := map Employee_toJSON seed.

(** [cached.length]: reading a property of [null] throws; a number or a
    boolean has no [length]. *)
Definition length_of (cached : json) : completion (option json) :=
  match cached with
  | JNull =>
      Throw "Cannot read properties of null (reading 'length')"
  | JArr items => Normal (Some (JNum (inject_Z (Z.of_nat (List.length items)))))
  | JStr s => Normal (Some (JNum (inject_Z (Z.of_nat (String.length s)))))
  | JObj props => Normal (getOwn "length" props)
  | JBool _ | JNum _ => Normal None
  end.

(** [cached.filter(isEmployee)]: only an array has a callable [filter];
    a string has none and an object read from JSON holds no function. *)
Definition filter_of (cached : json) : completion (list json) :=
  match cached with
  | JArr items => Normal (filter isEmployee items)
  | _ => Throw "cached.filter is not a function"
  end.

(** The initialiser of the [employees] state: the value it returns, or
    the error it throws, and what it wrote to storage. *)
Definition employees_init (ls : Storage) : completion (list json) * list Effect :=
  let cached := loadJSON JSON_parse ls LS_KEYS.employees (JArr []) in
  match length_of cached with
  | Throw err => (Throw err, [])
  | Normal len =>
      if match len with Some v => truthy v | None => false end
      then (filter_of cached, [])
      else (Normal seed_json,
            saveJSON JSON_stringify LS_KEYS.employees (JArr seed_json))
  end.
End Initialiser.

(** ** The component: state *)

Inductive UserRole : Type := admin | viewer.

(** The keys the sort picker offers. *)
Inductive SortKey : Type := key_name | key_hireDate | key_employeeId.

(** The object held in [form].  Its static type is [EmployeeBase]; the
    copy [{ ...e }] that [startEdit] stores also carries the record's
    [id], and the spreads of [upsert] copy it along. *)
Record Form : Type := mkForm {
  carriedId : option string;
  fields :> EmployeeBase
}.

Record State : Type := mkState {
  userRole : UserRole;
  employees : list Employee;
  q : string;
  fDept : string;
  fRole : string;
  fStatus : string;
  fContract : string;
  sortKey : SortKey;
  sortDir : SortDir;
  form : Form;
  editingId : option string
}.

Definition setEmployees (f : list Employee -> list Employee) (st : State) : State :=
  mkState (userRole st) (f (employees st)) (q st) (fDept st) (fRole st)
          (fStatus st) (fContract st) (sortKey st) (sortDir st) (form st)
          (editingId st).

Definition setForm (fm : Form) (st : State) : State :=
  mkState (userRole st) (employees st) (q st) (fDept st) (fRole st)
          (fStatus st) (fContract st) (sortKey st) (sortDir st) fm
          (editingId st).

Definition setEditingId (i : option string) (st : State) : State :=
  mkState (userRole st) (employees st) (q st) (fDept st) (fRole st)
          (fStatus st) (fContract st) (sortKey st) (sortDir st) (form st) i.

(** The search, filter and sort settings, replaced together. *)
Definition setQuery (q' fDept' fRole' fStatus' fContract' : string)
    (sortKey' : SortKey) (sortDir' : SortDir) (st : State) : State :=
  mkState (userRole st) (employees st) q' fDept' fRole' fStatus' fContract'
          sortKey' sortDir' (form st) (editingId st).

(** [!s] for a string. *)
Definition isEmpty (s : string) : bool := String.eqb s EmptyString.

Definition canEdit (st : State) : bool :=
  match userRole st with
  | admin => true
  | viewer => false
  end.

(** The notice the editor renders when [!canEdit]. *)
Definition viewerNotice (st : State) : option string :=
  if negb (canEdit st)
  then Some "You are in viewer mode. Switch to Admin to make changes."
  else None.

(** ** The component: the query view *)

(** [s.includes(sub)]. *)
Fixpoint includes (s sub : string) : bool :=
  String.prefix sub s ||
  match s with
  | EmptyString => false
  | String _ rest => includes rest sub
  end.

Definition keyOf (k : SortKey) (e : Employee) : string :=
  match k with
  | key_name => name e
  | key_hireDate => hireDate e
  | key_employeeId => employeeId e
  end.

(** The comparator of the [hireDate] branch: [>] on the two ISO strings,
    and never 0.  It is not a consistent comparator, so the place of
    records with equal hire dates among each other is the engine's choice;
    of that branch only what holds for every order of such records is
    stated below. *)
Definition compareHireDate (a b : Employee) : Z :=
  if String.ltb (hireDate b) (hireDate a) then 1 else -1.

Section Query.
Variable localeCompare : string -> string -> Z.
Variable toLowerCase : string -> string.
Variable trim : string -> string.

Definition matchesSearch (s : string) (e : Employee) : bool :=
  existsb (fun v => includes (toLowerCase v) s)
          [name e; employeeId e; email (contact e)].

(** The rows that pass the search box and the four selects. *)
Definition selected (st : State) : list Employee :=
  let rows := employees st in
  let rows :=
    if negb (isEmpty (trim (q st)))
    then filter (matchesSearch (toLowerCase (q st))) rows
    else rows in
  let rows :=
    if negb (String.eqb (fDept st) "All")
    then filter (fun e : Employee => String.eqb (Department_value (department e)) (fDept st)) rows
    else rows in
  let rows :=
    if negb (String.eqb (fRole st) "All")
    then filter (fun e : Employee => String.eqb (Role_value (role e)) (fRole st)) rows
    else rows in
  let rows :=
    if negb (String.eqb (fStatus st) "All")
    then filter (fun e : Employee => String.eqb (Status_value (status e)) (fStatus st)) rows
    else rows in
  if negb (String.eqb (fContract st) "All")
  then filter (fun e : Employee => String.eqb (ContractType_value (contractType e)) (fContract st)) rows
  else rows.

Definition filtered (st : State) : list Employee :=
  let rows := selected st in
  match sortKey st with
  | key_hireDate =>
      let rows := Array_sort compareHireDate rows in
      match sortDir st with
      | desc => rev rows
      | asc => rows
      end
  | k => sortByKey localeCompare (keyOf k) rows (sortDir st)
  end.
End Query.

(** ** The component: metrics *)

Definition total (st : State) : nat := List.length (employees st).

Section Metrics.
Variable Date_getTime : string -> option Z.

(** [daysBetween(e.hireDate, now) <= 30]; a comparison with [NaN] is
    false. *)
Definition hiredWithin30 (nowIso : string) (e : Employee) : bool :=
  match daysBetween Date_getTime (hireDate e) nowIso with
  | Some days => days <=? 30
  | None => false
  end.

(** [nowIso] is [new Date().toISOString()]. *)
Definition newlyHired (nowIso : string) (st : State) : nat :=
  List.length (filter (hiredWithin30 nowIso) (employees st)).
End Metrics.

Definition onProbation (st : State) : nat :=
  List.length
    (filter (fun e : Employee =>
               match status e with Probation => true | _ => false end)
            (employees st)).

(** ** The component: the editor *)

(** [today] is [new Date().toISOString().slice(0, 10)]. *)
Definition emptyForm (today : string) : Form :=
  mkForm None
    (mkBase EmptyString EmptyString Engineering Engineer (Some EmptyString)
       Active Permanent today
       (mkContact EmptyString EmptyString EmptyString EmptyString)
       (Some EmptyString)).

Definition startAdd (today : string) (st : State) : State :=
  setForm (emptyForm today) (setEditingId None st).

Definition startEdit (id0 : string) (st : State) : State :=
  match find (fun x => String.eqb (id x) id0) (employees st) with
  | None => st
  | Some e => setForm (mkForm (Some (id e)) (base e)) (setEditingId (Some id0) st)
  end.

(** [confirmed] is what the user answers to [confirm]. *)
Definition remove (confirmed : bool) (id0 : string) (st : State) : State * list Effect :=
  if negb (canEdit st) then (st, [])
  else if confirmed
       then (setEmployees (filter (fun x => negb (String.eqb (id x) id0))) st,
             [Confirm "Delete this employee?"])
       else (st, [Confirm "Delete this employee?"]).

(** [{ ...x, ...form }]: every property the form has replaces the one of
    [x]; an optional property the form lacks keeps the value of [x]. *)
Definition orElse (a b : option string) : option string :=
  match a with
  | Some _ => a
  | None => b
  end.

Definition merge (x : Employee) (fm : Form) : Employee :=
  mkEmployee
    (match carriedId fm with Some i => i | None => id x end)
    (mkBase (name fm) (employeeId fm) (department fm) (role fm)
       (orElse (supervisor fm) (supervisor x)) (status fm) (contractType fm)
       (hireDate fm) (contact fm) (orElse (photoUrl fm) (photoUrl x))).

(** [{ id: uid(), ...form }]. *)
Definition newEmployee (fresh : string) (fm : Form) : Employee :=
  mkEmployee (match carriedId fm with Some i => i | None => fresh end)
             (fields fm).

(** The "very light validation" of [upsert]. *)
Definition invalid (fm : Form) : bool :=
  isEmpty (name fm) || isEmpty (employeeId fm) || isEmpty (email (contact fm)).

(** The alert of a failed validation. *)
Definition validationAlert : Effect :=
  Alert "Please fill name, employee ID and email.".

(** [fresh] is what [uid()] returns if it is called.  [if (editingId)]
    fails for [null] and for the empty string. *)
Definition upsert (fresh today : string) (st : State) : State * list Effect :=
  if negb (canEdit st) then (st, [PreventDefault])
  else if invalid (form st)
  then (st, [PreventDefault; validationAlert])
  else
    let create :=
      setEmployees (fun prev => newEmployee fresh (form st) :: prev) st in
    let st :=
      match editingId st with
      | Some i =>
          if isEmpty i then create
          else setEmployees
                 (map (fun x => if String.eqb (id x) i then merge x (form st) else x))
                 st
      | None => create
      end in
    (setForm (emptyForm today) (setEditingId None st), [PreventDefault]).

(** ** The component: export *)

Section ExportJSON.
(** [JSON.stringify(value, null, 2)]. *)
Variable JSON_stringify_pretty : json -> string.

Definition exportJSON (st : State) : list Effect :=
  [Download "employees.json" "application/json"
     (JSON_stringify_pretty (JArr (map Employee_toJSON (employees st))))].
End ExportJSON.

Definition orEmpty (v : option string) : string :=
  match v with
  | Some s => s
  | None => EmptyString
  end.

Definition csvRow (e : Employee) : Row :=
  [ ("id", id e);
    ("name", name e);
    ("employeeId", employeeId e);
    ("department", Department_value (department e));
    ("role", Role_value (role e));
    ("supervisor", orEmpty (supervisor e));
    ("status", Status_value (status e));
    ("contractType", ContractType_value (contractType e));
    ("hireDate", hireDate e);
    ("email", email (contact e));
    ("phone", phone (contact e));
    ("emergencyName", emergencyName (contact e));
    ("emergencyPhone", emergencyPhone (contact e));
    ("photoUrl", orEmpty (photoUrl e)) ].

Definition exportCSV (st : State) : list Effect :=
  let rows := map csvRow (employees st) in
  let csv := toCSV rows in
  [Download "employees.csv" "text/csv;charset=utf-8;" csv].

(** ** The component: grouped counts

    [byDept] and [byStatus] fill a counter object in one pass and list
    its entries.  The object is the list of its own properties in
    insertion order: the keys are enum values, none of them an integer
    index or a name inherited from [Object.prototype], so [map[k]] is the
    own property or [undefined] and [Object.entries] lists the keys as
    they were first written.  An entry [{ name, value }] is the pair
    [(name, value)]. *)

(** [map[k] = (map[k] || 0) + 1]. *)
Fixpoint bump (k : string) (counts : list (string * nat)) : list (string * nat) :=
  match counts with
  | [] => [(k, 1%nat)]
  | (k', n) :: rest =>
      if String.eqb k k' then (k', S n) :: rest else (k', n) :: bump k rest
  end.

Definition countBy (key : Employee -> string) (rows : list Employee)
    : list (string * nat) :=
  fold_left (fun counts e => bump (key e) counts) rows [].

Definition byDept (st : State) : list (string * nat) :=
  countBy (fun e => Department_value (department e)) (employees st).

Definition byStatus (st : State) : list (string * nat) :=
  countBy (fun e => Status_value (status e)) (employees st).

(** ** The component: the inputs of the editor and the header

    Each input of the form replaces one property of [form] by the value
    typed or selected; a select offers the values of its enum only. *)
Inductive FieldEdit : Type :=
  | edit_name (v : string)
  | edit_employeeId (v : string)
  | edit_department (v : Department)
  | edit_role (v : Role)
  | edit_supervisor (v : string)
  | edit_status (v : Status)
  | edit_contractType (v : ContractType)
  | edit_hireDate (v : string)
  | edit_email (v : string)
  | edit_phone (v : string)
  | edit_emergencyName (v : string)
  | edit_emergencyPhone (v : string)
  | edit_photoUrl (v : string).

(** [{ ...form, key: v }], and [{ ...form, contact: { ...form.contact,
    key: v } }] for the four contact inputs. *)
Definition applyEdit (f : FieldEdit) (fm : Form) : Form :=
  let b := fields fm in
  let c := contact b in
  let withBase (b' : EmployeeBase) := mkForm (carriedId fm) b' in
  let withContact (c' : ContactInfo) :=
    withBase (mkBase (name b) (employeeId b) (department b) (role b)
                (supervisor b) (status b) (contractType b) (hireDate b) c'
                (photoUrl b)) in
  match f with
  | edit_name v =>
      withBase (mkBase v (employeeId b) (department b) (role b) (supervisor b)
                  (status b) (contractType b) (hireDate b) c (photoUrl b))
  | edit_employeeId v =>
      withBase (mkBase (name b) v (department b) (role b) (supervisor b)
                  (status b) (contractType b) (hireDate b) c (photoUrl b))
  | edit_department v =>
      withBase (mkBase (name b) (employeeId b) v (role b) (supervisor b)
                  (status b) (contractType b) (hireDate b) c (photoUrl b))
  | edit_role v =>
      withBase (mkBase (name b) (employeeId b) (department b) v (supervisor b)
                  (status b) (contractType b) (hireDate b) c (photoUrl b))
  | edit_supervisor v =>
      withBase (mkBase (name b) (employeeId b) (department b) (role b) (Some v)
                  (status b) (contractType b) (hireDate b) c (photoUrl b))
  | edit_status v =>
      withBase (mkBase (name b) (employeeId b) (department b) (role b)
                  (supervisor b) v (contractType b) (hireDate b) c (photoUrl b))
  | edit_contractType v =>
      withBase (mkBase (name b) (employeeId b) (department b) (role b)
                  (supervisor b) (status b) v (hireDate b) c (photoUrl b))
  | edit_hireDate v =>
      withBase (mkBase (name b) (employeeId b) (department b) (role b)
                  (supervisor b) (status b) (contractType b) v c (photoUrl b))
  | edit_email v =>
      withContact (mkContact (phone c) v (emergencyName c) (emergencyPhone c))
  | edit_phone v =>
      withContact (mkContact v (email c) (emergencyName c) (emergencyPhone c))
  | edit_emergencyName v =>
      withContact (mkContact (phone c) (email c) v (emergencyPhone c))
  | edit_emergencyPhone v =>
      withContact (mkContact (phone c) (email c) (emergencyName c) v)
  | edit_photoUrl v =>
      withBase (mkBase (name b) (employeeId b) (department b) (role b)
                  (supervisor b) (status b) (contractType b) (hireDate b) c
                  (Some v))
  end.

Definition editForm (f : FieldEdit) (st : State) : State :=
  setForm (applyEdit f (form st)) st.

Definition setUserRole (r : UserRole) (st : State) : State :=
  mkState r (employees st) (q st) (fDept st) (fRole st) (fStatus st)
          (fContract st) (sortKey st) (sortDir st) (form st) (editingId st).

(** What the user can do to the component, with the impure inputs of the
    handler that runs. *)
Inductive Action : Type :=
  | act_startAdd (today : string)
  | act_startEdit (id0 : string)
  | act_remove (confirmed : bool) (id0 : string)
  | act_upsert (fresh today : string)
  | act_edit (f : FieldEdit)
  | act_setUserRole (r : UserRole)
  | act_setQuery (q' fDept' fRole' fStatus' fContract' : string)
                 (sortKey' : SortKey) (sortDir' : SortDir).

(** The state after the handler of an action has run. *)
Definition step (a : Action) (st : State) : State :=
  match a with
  | act_startAdd today => startAdd today st
  | act_startEdit id0 => startEdit id0 st
  | act_remove confirmed id0 => fst (remove confirmed id0 st)
  | act_upsert fresh today => fst (upsert fresh today st)
  | act_edit f => editForm f st
  | act_setUserRole r => setUserRole r st
  | act_setQuery q' d r s c k dir => setQuery q' d r s c k dir st
  end.

Definition run (actions : list Action) (st : State) : State :=
  fold_left (fun s a => step a s) actions st.

(** ** Storage after a list of effects *)

Definition setItem (ls : Storage) (key value : string) : Storage :=
  fun k => if String.eqb k key then Some value else ls k.

Definition perform (effects : list Effect) (ls : Storage) : Storage :=
  fold_left (fun s e => match e with
                        | SetItem key value => setItem s key value
                        | _ => s
                        end)
            effects ls.

(** ** A concrete host

    Instances of the platform functions, used to run the model on concrete
    inputs.  Each one agrees with the platform on the inputs it is run on
    below: ASCII text, ISO dates of valid calendar days, and the JSON
    texts of the sample values. *)
Module Host.

(** Ordering by character code, as a collation. *)
Definition localeCompare (a b : string) : Z :=
  match String.compare a b with
  | Lt => -1
  | Eq => 0
  | Gt => 1
  end.

Definition lowerChar (c : ascii) : ascii :=
  let n := nat_of_ascii c in
  if (Nat.leb 65 n && Nat.leb n 90)%bool then ascii_of_nat (n + 32) else c.

Fixpoint toLowerCase (s : string) : string :=
  match s with
  | EmptyString => EmptyString
  | String c rest => String (lowerChar c) (toLowerCase rest)
  end.

Definition isSpace (c : ascii) : bool :=
  let n := nat_of_ascii c in
  (Nat.eqb n 32 || (Nat.leb 9 n && Nat.leb n 13))%bool.

Fixpoint trimStart (s : string) : string :=
  match s with
  | EmptyString => EmptyString
  | String c rest => if isSpace c then trimStart rest else s
  end.

Fixpoint trimEnd (s : string) : string :=
  match s with
  | EmptyString => EmptyString
  | String c rest =>
      match trimEnd rest with
      | EmptyString => if isSpace c then EmptyString else String c EmptyString
      | kept => String c kept
      end
  end.

Definition trim (s : string) : string := trimEnd (trimStart s).

(** *** Dates: [YYYY-MM-DD] and [YYYY-MM-DDTHH:mm:ss.sssZ], both UTC *)

Definition digit (c : ascii) : option Z :=
  let n := nat_of_ascii c in
  if (Nat.leb 48 n && Nat.leb n 57)%bool then Some (Z.of_nat (n - 48)) else None.

Fixpoint number (acc : Z) (cs : list ascii) : option Z :=
  match cs with
  | [] => Some acc
  | c :: rest =>
      match digit c with
      | Some d => number (10 * acc + d) rest
      | None => None
      end
  end.

Definition isLeap (y : Z) : bool :=
  ((y mod 4 =? 0) && negb (y mod 100 =? 0) || (y mod 400 =? 0))%bool.

Definition daysInMonth (y m : Z) : Z :=
  if m =? 2 then (if isLeap y then 29 else 28)
  else if (m =? 4) || (m =? 6) || (m =? 9) || (m =? 11) then 30
  else 31.

(** Days from 1970-01-01 to the civil date [y-m-d]. *)
Definition daysFromCivil (y m d : Z) : Z :=
  let y' := if m <=? 2 then y - 1 else y in
  let era := y' / 400 in
  let yoe := y' - era * 400 in
  let mp := if m <=? 2 then m + 9 else m - 3 in
  let doy := (153 * mp + 2) / 5 + d - 1 in
  let doe := yoe * 365 + yoe / 4 - yoe / 100 + doy in
  era * 146097 + doe - 719468.

Definition parseDate (cs : list ascii) : option Z :=
  match cs with
  | [y1; y2; y3; y4; s1; m1; m2; s2; d1; d2] =>
      match number 0 [y1; y2; y3; y4], number 0 [m1; m2], number 0 [d1; d2] with
      | Some y, Some m, Some d =>
          if (Ascii.eqb s1 "-" && Ascii.eqb s2 "-" && (1 <=? m) && (m <=? 12)
              && (1 <=? d) && (d <=? daysInMonth y m))%bool
          then Some (daysFromCivil y m d * msPerDay)
          else None
      | _, _, _ => None
      end
  | _ => None
  end.

Definition parseTime (cs : list ascii) : option Z :=
  match cs with
  | [t; h1; h2; c1; n1; n2; c2; s1; s2; dot; f1; f2; f3; z] =>
      match number 0 [h1; h2], number 0 [n1; n2], number 0 [s1; s2],
            number 0 [f1; f2; f3] with
      | Some h, Some n, Some s, Some f =>
          if (Ascii.eqb t "T" && Ascii.eqb c1 ":" && Ascii.eqb c2 ":"
              && Ascii.eqb dot "." && Ascii.eqb z "Z"
              && (h <? 24) && (n <? 60) && (s <? 60))%bool
          then Some (((h * 60 + n) * 60 + s) * 1000 + f)
          else None
      | _, _, _, _ => None
      end
  | _ => None
  end.

Definition Date_getTime (iso : string) : option Z :=
  let cs := list_ascii_of_string iso in
  match parseDate (firstn 10 cs) with
  | None => None
  | Some day =>
      match skipn 10 cs with
      | [] => Some day
      | rest =>
          match parseTime rest with
          | Some ms => Some (day + ms)
          | None => None
          end
      end
  end.

(** *** JSON texts of values built from [null], booleans, integral
    numbers, strings without control characters, arrays and objects
    (compact form) *)

Definition backslash : ascii := ascii_of_nat 92.

Fixpoint escape (s : string) : string :=
  match s with
  | EmptyString => EmptyString
  | String c rest =>
      if (Ascii.eqb c dquote || Ascii.eqb c backslash)%bool
      then String backslash (String c (escape rest))
      else String c (escape rest)
  end.

Definition quote (s : string) : string :=
  String dquote (escape s ++ String dquote EmptyString).

Fixpoint JSON_stringify (v : json) : string :=
  match v with
  | JNull => "null"
  | JBool true => "true"
  | JBool false => "false"
  | JNum x => NilZero.string_of_int (Z.to_int (Qnum x / Zpos (Qden x)))
  | JStr s => quote s
  | JArr items => "[" ++ String.concat comma (map JSON_stringify items) ++ "]"
  | JObj props =>
      "{" ++ String.concat comma
               (map (fun kv => quote (fst kv) ++ ":" ++ JSON_stringify (snd kv)) props)
          ++ "}"
  end.

(** [JSON.parse] on the texts of the values in [samples]; every other
    text is rejected. *)
Definition JSON_parse (samples : list json) (s : string) : option json :=
  find (fun v => String.eqb (JSON_stringify v) s) samples.

End Host.

(** [useEffect(() => saveJSON(LS_KEYS.employees, employees), [employees])]:
    what is written after the collection changed. *)
Definition persistEmployees (JSON_stringify : json -> string) (st : State) : list Effect :=
  saveJSON JSON_stringify LS_KEYS.employees
           (JArr (map Employee_toJSON (employees st))).

(** ** Words of the specification *)

(** Two records are tied under a comparator when it returns 0 on them. *)
Definition tied (T : Type) (comparefn : T -> T -> Z) (x y : T) : bool :=
  comparefn x y =? 0.

(** The ties of a collation form an equivalence; every consistent
    comparator, as ECMAScript calls it, has this property. *)
Record TiesEquivalence (compare : string -> string -> Z) : Prop := {
  ties_sym : forall a b, compare a b = 0 -> compare b a = 0;
  ties_trans : forall a b c, compare a b = 0 -> compare b c = 0 -> compare a c = 0
}.

(** "Now is less than thirty days and a half after the hire": the records
    whose rounded day difference is at most 30, on the time values. *)
Definition withinThirtyDays (Date_getTime : string -> option Z)
    (nowIso : string) (e : Employee) : bool :=
  match Date_getTime (hireDate e), Date_getTime nowIso with
  | Some hired, Some now => 2 * (now - hired) <? 61 * msPerDay
  | _, _ => false
  end.

(** The header line and the columns of a CSV line, as the specification
    lists them. *)
Definition csvHeader : string :=
  "id,name,employeeId,department,role,supervisor,status,contractType,hireDate,email,phone,emergencyName,emergencyPhone,photoUrl".

Definition csvColumns (e : Employee) : list string :=
  [ id e; name e; employeeId e; Department_value (department e);
    Role_value (role e);
    match supervisor e with Some s => s | None => EmptyString end;
    Status_value (status e); ContractType_value (contractType e);
    hireDate e; email (contact e); phone (contact e);
    emergencyName (contact e); emergencyPhone (contact e);
    match photoUrl e with Some s => s | None => EmptyString end ].

(** A quoted field: a quote, the characters of the value with each quote
    written twice, a quote. *)
Definition quotedField (s : string) : string :=
  string_of_list_ascii
    (dquote
     :: flat_map (fun c => if Ascii.eqb c dquote then [dquote; dquote] else [c])
                 (list_ascii_of_string s)
     ++ [dquote]).

(** The parsed values the initialiser answers with the seed: those whose
    [length] is missing or falsy. *)
Definition lacksLength (cached : json) : bool :=
  match cached with
  | JNull => false
  | JBool _ | JNum _ => true
  | JStr s => isEmpty s
  | JArr items => match items with [] => true | _ :: _ => false end
  | JObj props =>
      match getOwn "length" props with
      | Some v => negb (truthy v)
      | None => true
      end
  end.

(** The predicate of the search box and the four selects, on one record. *)
Definition keeps (toLowerCase trim : string -> string) (st : State) (e : Employee) : bool :=
  (isEmpty (trim (q st)) || matchesSearch toLowerCase (toLowerCase (q st)) e)
  && (String.eqb (fDept st) "All" || String.eqb (Department_value (department e)) (fDept st))
  && (String.eqb (fRole st) "All" || String.eqb (Role_value (role e)) (fRole st))
  && (String.eqb (fStatus st) "All" || String.eqb (Status_value (status e)) (fStatus st))
  && (String.eqb (fContract st) "All"
      || String.eqb (ContractType_value (contractType e)) (fContract st)).

(** ** Sample data *)
Module Samples.

Definition desk : ContactInfo :=
  mkContact "+234-700-0001" "ada@uptick.test" "Obi" "+234-700-0002".

(** Two records with the same name and hire date, and one hired on
    2030-01-01. *)
Definition ada1 : Employee :=
  mkEmployee "k3x9a" (mkBase "Ada Obi" "EMP-010" Engineering Engineer None
                        Active Permanent "2026-10-20" desk None).
Definition ada2 : Employee :=
  mkEmployee "k3x9b" (mkBase "Ada Obi" "EMP-011" Sales SalesRep
                        (Some "Sam Carter") Probation Contract "2026-10-20"
                        desk (Some "https://i.pravatar.cc/100?img=2")).
Definition nextDecade : Employee :=
  mkEmployee "k3x9c" (mkBase "Zed Future" "EMP-012" Finance Accountant None
                        Active Intern "2030-01-01" desk None).

Definition today : string := "2026-11-02".
Definition nowIso : string := "2026-11-02T09:30:00.000Z".

Definition stateOf (r : UserRole) (rows : list Employee) (fm : Form)
    (editing : option string) : State :=
  mkState r rows EmptyString "All" "All" "All" "All" key_name asc fm editing.

Definition adminState : State :=
  stateOf admin [ada1; ada2] (emptyForm today) None.
Definition viewerState : State :=
  stateOf viewer [ada1; ada2] (mkForm None ada1) None.
(** The same collection, sorted by name, descending. *)
Definition twoAdasDesc : State :=
  setQuery EmptyString "All" "All" "All" "All" key_name desc adminState.
(** Only the Sales department is shown. *)
Definition salesOnly : State :=
  setQuery EmptyString "Sales" "All" "All" "All" key_name asc adminState.
Definition futureHire : State :=
  stateOf admin [nextDecade] (emptyForm today) None.
(** An edit of a record that has been deleted in the meantime. *)
Definition staleEdit : State :=
  stateOf admin [ada2] (mkForm (Some "k3x9a") ada1) (Some "k3x9a").
Definition emptyRoster : State :=
  stateOf admin [] (emptyForm today) None.

(** Stored values: a record that passes the guard, two that do not. *)
Definition wellFormed : json := Employee_toJSON ada1.
Definition noName : json := JObj [("id", JStr "k3x9d"); ("employeeId", JStr "EMP-013")].
Definition justText : json := JStr "EMP-014".
(** A record whose [contact] is [null]. *)
Definition nullContact : json :=
  JObj [("id", JStr "k3x9e"); ("name", JStr "Ola"); ("employeeId", JStr "EMP-015");
        ("department", JStr "HR"); ("role", JStr "Recruiter");
        ("status", JStr "Active"); ("contractType", JStr "Intern");
        ("hireDate", JStr "2026-10-01"); ("contact", JNull)].

Definition samples : list json :=
  [ JNull; JObj []; JBool true; JArr [];
    JArr [wellFormed; noName]; JArr [noName; justText] ].

Definition JSON_parse : string -> option json := Host.JSON_parse samples.

(** A storage that holds [text] under the employees key and nothing
    else. *)
Definition storing (text : string) : Storage :=
  fun key => if String.eqb key LS_KEYS.employees then Some text else None.

(** The text [She said "hi"] and its quoted form. *)
Definition sheSaidHi : string :=
  "She said " ++ String dquote ("hi" ++ String dquote EmptyString).
Definition sheSaidHiQuoted : string :=
  String dquote
    ("She said "
     ++ String dquote (String dquote
          ("hi" ++ String dquote (String dquote (String dquote EmptyString))))).

Definition seed : list Employee :=
  SEED "u1" "u2" "u3" "2026-10-13T09:30:00.000Z" "2026-07-05T09:30:00.000Z"
       "2026-09-03T09:30:00.000Z".

End Samples.

(** ** Words for the further properties *)

(** The distinct values of a list, each at its first occurrence. *)
Fixpoint distinct (ks : list string) : list string :=
  match ks with
  | [] => []
  | k :: rest => k :: filter (fun k' => negb (String.eqb k' k)) (distinct rest)
  end.

(** The count listed for [k], 0 when [k] is not listed. *)
Fixpoint countOf (k : string) (counts : list (string * nat)) : nat :=
  match counts with
  | [] => 0%nat
  | (k', n) :: rest => if String.eqb k k' then n else countOf k rest
  end.

(** The sum of the counts listed. *)
Definition sumOf (counts : list (string * nat)) : nat := list_sum (map snd counts).

(** Whether [k] is one of [ks]. *)
Definition listed (k : string) (ks : list string) : bool :=
  existsb (String.eqb k) ks.

(** The ids of the collection, in order. *)
Definition ids (st : State) : list string := map id (employees st).

(** The form carries the id under edit and no other; no edit is open on
    the empty id; the ids of the collection are pairwise distinct and
    none is empty. *)
Definition consistent (st : State) : Prop :=
  carriedId (form st) = editingId st
  /\ editingId st <> Some EmptyString
  /\ NoDup (ids st)
  /\ ~ In EmptyString (ids st).

(** The id [uid()] hands out is not empty and not in use. *)
Definition freshFor (st : State) (a : Action) : Prop :=
  match a with
  | act_upsert fresh _ => fresh <> EmptyString /\ ~ In fresh (ids st)
  | _ => True
  end.

Fixpoint freshAlong (st : State) (actions : list Action) : Prop :=
  match actions with
  | [] => True
  | a :: rest => freshFor st a /\ freshAlong (step a st) rest
  end.

(** No action of the list switches the role. *)
Definition keepsRole (actions : list Action) : Prop :=
  Forall (fun a => match a with act_setUserRole _ => False | _ => True end) actions.

(** The required fields of a draft are filled in. *)
Definition filledIn (b : EmployeeBase) : Prop :=
  name b <> EmptyString /\ employeeId b <> EmptyString
  /\ email (contact b) <> EmptyString.

(** More sample data. *)
Module MoreSamples.

(** A valid draft typed into the empty form. *)
Definition draft : Form :=
  mkForm None
    (mkBase "Tolu Ade" "EMP-020" Operations OperationsAnalyst None OnLeave
       Contract "2026-11-01"
       (mkContact "+234-700-0009" "tolu@uptick.test" "Ade" "+234-700-0010")
       None).

Definition adding : State := Samples.stateOf admin [Samples.ada1; Samples.ada2] draft None.

(** The second record under edit, its form as [startEdit] left it. *)
Definition editing : State := startEdit "k3x9b" Samples.adminState.

Definition session : list Action :=
  [ act_startEdit "k3x9a"; act_edit (edit_name "Ada Obi-Eze");
    act_upsert "k3x9m" Samples.today;
    act_edit (edit_name "Tolu Ade"); act_edit (edit_employeeId "EMP-020");
    act_edit (edit_email "tolu@uptick.test");
    act_upsert "k3x9n" Samples.today;
    act_remove true "k3x9b" ].

(** A parser for the text of the stored collection of [Samples.adminState]
    and of the empty collection. *)
Definition stored : json := JArr (map Employee_toJSON (employees Samples.adminState)).
Definition JSON_parse : string -> option json :=
  Host.JSON_parse [stored; JArr []; JBool true].

(** A search for the text [obi]. *)
Definition searching : State :=
  setQuery "obi" "All" "All" "All" "All" key_employeeId asc Samples.adminState.

(** A department filter that names no department. *)
Definition strayFilter : State :=
  setQuery EmptyString "Legal" "All" "All" "All" key_name asc Samples.adminState.

End MoreSamples.

(** * Properties *)

(** ** Sorting *)

Section ArraySortFacts.
Variable T : Type.
Variable comparefn : T -> T -> Z.
Hypothesis tie_sym : forall a b, comparefn a b = 0 -> comparefn b a = 0.
Hypothesis tie_trans :
  forall a b c, comparefn a b = 0 -> comparefn b c = 0 -> comparefn a c = 0.

Lemma tied_exclusive (z x y : T) :
  comparefn x y <> 0 ->
  tied comparefn z x = true -> tied comparefn z y = true -> False.
Proof.
  unfold tied. intros Hxy Hx Hy.
  apply Z.eqb_eq in Hx. apply Z.eqb_eq in Hy.
  apply Hxy. apply tie_trans with z; auto.
Qed.

Lemma filter_tied_insert (z x : T) (l : list T) :
  filter (tied comparefn z) (insert comparefn x l)
  = filter (tied comparefn z) (x :: l).
Proof.
  induction l as [|y l IH]; [reflexivity|].
  cbn [insert]. destruct (comparefn x y <=? 0) eqn:Hle; [reflexivity|].
  apply Z.leb_gt in Hle.
  cbn [filter]. rewrite IH. cbn [filter].
  destruct (tied comparefn z x) eqn:Hx, (tied comparefn z y) eqn:Hy;
    try reflexivity.
  exfalso. apply (@tied_exclusive z x y); auto. lia.
Qed.

Lemma insert_Permutation (x : T) (l : list T) :
  Permutation (insert comparefn x l) (x :: l).
Proof.
  induction l as [|y l IH]; [apply Permutation_refl|].
  cbn [insert]. destruct (comparefn x y <=? 0); [apply Permutation_refl|].
  apply Permutation_trans with (y :: x :: l);
    [now apply perm_skip | apply perm_swap].
Qed.

(** The sort neither drops nor invents an element. *)
Lemma Array_sort_Permutation (l : list T) :
  Permutation (Array_sort comparefn l) l.
Proof.
  induction l as [|x l IH]; [apply Permutation_refl|].
  cbn [Array_sort fold_right]. fold (Array_sort comparefn l).
  apply Permutation_trans with (x :: Array_sort comparefn l);
    [apply insert_Permutation | now apply perm_skip].
Qed.

(** When a positive answer one way means a non-positive answer the other
    way, as for every consistent comparator, the result is in
    non-decreasing order. *)
Lemma insert_Sorted (x : T) (l : list T) :
  (forall a b, 0 < comparefn a b -> comparefn b a <= 0) ->
  Sorted (fun a b => comparefn a b <= 0) l ->
  Sorted (fun a b => comparefn a b <= 0) (insert comparefn x l).
Proof.
  intros Hflip Hl. induction Hl as [|y l Hl IH Hhd].
  - repeat constructor.
  - cbn [insert]. destruct (Z.leb_spec (comparefn x y) 0) as [Hle|Hgt].
    + constructor; [now constructor | now constructor].
    + constructor; [exact IH|].
      destruct l as [|z l]; cbn [insert].
      * constructor. now apply Hflip.
      * destruct (comparefn x z <=? 0); constructor;
          [now apply Hflip | now inversion Hhd].
Qed.

Lemma Array_sort_Sorted (l : list T) :
  (forall a b, 0 < comparefn a b -> comparefn b a <= 0) ->
  Sorted (fun a b => comparefn a b <= 0) (Array_sort comparefn l).
Proof.
  intro Hflip. induction l as [|x l IH]; [constructor|].
  cbn [Array_sort fold_right]. now apply insert_Sorted.
Qed.

(** The sort keeps every class of tied elements in its input order. *)
Lemma Array_sort_stable (z : T) (l : list T) :
  filter (tied comparefn z) (Array_sort comparefn l)
  = filter (tied comparefn z) l.
Proof.
  induction l as [|x l IH]; [reflexivity|].
  cbn [Array_sort fold_right]. fold (Array_sort comparefn l).
  rewrite filter_tied_insert. cbn [filter]. rewrite IH. reflexivity.
Qed.
End ArraySortFacts.

Lemma filter_rev (T : Type) (p : T -> bool) (l : list T) :
  filter p (rev l) = rev (filter p l).
Proof.
  induction l as [|x l IH]; [reflexivity|].
  cbn [rev filter]. rewrite filter_app, IH. cbn [filter].
  destruct (p x); cbn [rev]; [reflexivity | now rewrite app_nil_r].
Qed.

Section CompareByKeyFacts.
Variable localeCompare : string -> string -> Z.
Hypothesis collation : TiesEquivalence localeCompare.
Variable T : Type.
Variable key : T -> string.

Lemma compareByKey_zero (a b : T) :
  compareByKey localeCompare key a b = 0
  <-> key a = key b \/ localeCompare (key a) (key b) = 0.
Proof.
  unfold compareByKey. destruct (String.eqb_spec (key a) (key b)); intuition.
Qed.

Lemma compareByKey_sym (a b : T) :
  compareByKey localeCompare key a b = 0 ->
  compareByKey localeCompare key b a = 0.
Proof.
  rewrite !compareByKey_zero. intros [H|H]; [left; auto|right].
  now apply (ties_sym collation).
Qed.

Lemma compareByKey_trans (a b c : T) :
  compareByKey localeCompare key a b = 0 ->
  compareByKey localeCompare key b c = 0 ->
  compareByKey localeCompare key a c = 0.
Proof.
  rewrite !compareByKey_zero. intros [H1|H1] [H2|H2].
  - left. congruence.
  - right. now rewrite H1.
  - right. now rewrite <- H2.
  - right. eapply (ties_trans collation); eauto.
Qed.

Lemma sortByKey_asc_stable (z : T) (l : list T) :
  filter (tied (compareByKey localeCompare key) z) (sortByKey localeCompare key l asc)
  = filter (tied (compareByKey localeCompare key) z) l.
Proof.
  unfold sortByKey.
  apply Array_sort_stable; [apply compareByKey_sym | apply compareByKey_trans].
Qed.

Lemma sortByKey_desc_is_rev (l : list T) :
  sortByKey localeCompare key l desc = rev (sortByKey localeCompare key l asc).
Proof. reflexivity. Qed.
End CompareByKeyFacts.

Lemma filter_twice (T : Type) (p r : T -> bool) (l : list T) :
  filter r (filter p l) = filter (fun x => p x && r x) l.
Proof.
  induction l as [|x l IH]; [reflexivity|].
  cbn [filter]. destruct (p x); cbn [filter andb]; now rewrite IH.
Qed.

Lemma filter_unless (T : Type) (off : bool) (p : T -> bool) (l : list T) :
  (if negb off then filter p l else l) = filter (fun x => off || p x) l.
Proof.
  destruct off; cbn [negb orb]; [|reflexivity].
  induction l as [|x l IH]; [reflexivity|]. cbn [filter]. now rewrite <- IH.
Qed.

Lemma selected_is_filter (toLowerCase trim : string -> string) (st : State) :
  selected toLowerCase trim st = filter (keeps toLowerCase trim st) (employees st).
Proof.
  unfold selected, keeps.
  rewrite !filter_unless, !filter_twice.
  apply filter_ext. intro e. now rewrite !andb_assoc.
Qed.

(** The [hireDate] comparator never answers 0: on two equal dates it
    places each record before the other, so it is not a consistent
    comparator and the order of such records is left to the engine. *)
Lemma compareHireDate_on_equal_dates (a b : Employee) :
  hireDate a = hireDate b ->
  compareHireDate a b = -1 /\ compareHireDate b a = -1.
Proof.
  unfold compareHireDate, String.ltb. intros ->.
  assert (E : String.compare (hireDate b) (hireDate b) = Eq).
  { destruct (String.compare (hireDate b) (hireDate b)) eqn:C; auto;
      pose proof (String.compare_antisym (hireDate b) (hireDate b)) as A;
      rewrite C in A; discriminate. }
  now rewrite E.
Qed.

Lemma Host_collation : TiesEquivalence Host.localeCompare.
Proof.
  assert (H : forall a b, Host.localeCompare a b = 0 -> a = b).
  { unfold Host.localeCompare. intros a b.
    destruct (String.compare a b) eqn:E; try discriminate.
    intros _. now apply String.compare_eq_iff. }
  split.
  - intros a b Hab. pose proof (H _ _ Hab) as Heq. subst b. exact Hab.
  - intros a b c Hab Hbc. apply H in Hab. now subst b.
Qed.

(** C2, as stated, fails: two records with the same name, sorted by name
    in descending order, come out in the reverse of their input order. *)
Lemma descending_swaps_tied_records :
  tied (compareByKey Host.localeCompare (keyOf key_name)) Samples.ada1 Samples.ada2 = true
  /\ employees Samples.twoAdasDesc = [Samples.ada1; Samples.ada2]
  /\ filtered Host.localeCompare Host.toLowerCase Host.trim Samples.twoAdasDesc
     = [Samples.ada2; Samples.ada1].
Proof. repeat split; vm_compute; reflexivity. Qed.

(** C2, amended: when the view is sorted by name or by employeeId and the
    ties of localeCompare form an equivalence, every class of records
    whose keys compare equal appears in the view in the order it has in
    the collection (among the records that pass the search and the
    filters) if the direction is ascending, and in the reverse of that
    order if it is descending. *)
Theorem sort_keeps_ties_asc_reverses_desc :
  forall (localeCompare : string -> string -> Z) (toLowerCase trim : string -> string)
         (st : State) (x : Employee),
    TiesEquivalence localeCompare ->
    sortKey st <> key_hireDate ->
    let same := tied (compareByKey localeCompare (keyOf (sortKey st))) x in
    let input := filter (keeps toLowerCase trim st) (employees st) in
    filter same (filtered localeCompare toLowerCase trim st)
    = match sortDir st with
      | asc => filter same input
      | desc => rev (filter same input)
      end.
Proof.
  intros lc lower trim st x Hlc Hkey same input. subst same input.
  rewrite <- selected_is_filter. unfold filtered.
  destruct (sortKey st) eqn:Hk; [|congruence|];
    destruct (sortDir st);
    rewrite ?sortByKey_desc_is_rev, ?filter_rev, sortByKey_asc_stable;
    auto.
Qed.

Lemma sort_keeps_ties_asc_reverses_desc_witness :
  filter (tied (compareByKey Host.localeCompare (keyOf key_name)) Samples.ada1)
         (filtered Host.localeCompare Host.toLowerCase Host.trim Samples.twoAdasDesc)
  = rev (filter (tied (compareByKey Host.localeCompare (keyOf key_name)) Samples.ada1)
                (filter (keeps Host.toLowerCase Host.trim Samples.twoAdasDesc)
                        (employees Samples.twoAdasDesc))).
Proof.
  apply (@sort_keeps_ties_asc_reverses_desc Host.localeCompare Host.toLowerCase
           Host.trim Samples.twoAdasDesc Samples.ada1 Host_collation).
  discriminate.
Defined.

(** ** Metrics *)

Lemma round_at_most_30 (x : Z) :
  (Math_round_div x msPerDay <=? 30) = (2 * x <? 61 * msPerDay).
Proof.
  unfold Math_round_div, msPerDay.
  destruct (Z.leb_spec ((2 * x + 1000 * 60 * 60 * 24) / (2 * (1000 * 60 * 60 * 24))) 30) as [H|H];
    destruct (Z.ltb_spec (2 * x) (61 * (1000 * 60 * 60 * 24))) as [H'|H'];
    try reflexivity; exfalso;
    Z.to_euclidean_division_equations; lia.
Qed.

Lemma hiredWithin30_spec (Date_getTime : string -> option Z) (nowIso : string)
    (e : Employee) :
  hiredWithin30 Date_getTime nowIso e = withinThirtyDays Date_getTime nowIso e.
Proof.
  unfold hiredWithin30, withinThirtyDays, daysBetween.
  destruct (Date_getTime (hireDate e)) as [h|]; [|reflexivity].
  destruct (Date_getTime nowIso) as [n|]; [|reflexivity].
  apply round_at_most_30.
Qed.

(** C3, as stated, fails: on 2026-11-02 a record hired on 2030-01-01 has a
    negative day difference and is counted as newly hired. *)
Lemma future_hire_is_counted :
  daysBetween Host.Date_getTime (hireDate Samples.nextDecade) Samples.nowIso
  = Some (-1156)
  /\ employees Samples.futureHire = [Samples.nextDecade]
  /\ newlyHired Host.Date_getTime Samples.nowIso Samples.futureHire = 1%nat.
Proof. repeat split; vm_compute; reflexivity. Qed.

(** C3, amended: for every collection and every current timestamp, the
    "newly hired" aggregate counts exactly the records for which hire date
    and current time are valid and the rounded whole-day difference from
    hire to now is at most 30, that is, now is less than 30.5 days after
    the hire; a record hired in the future has a negative difference and
    is therefore among the records counted. *)
Theorem newlyHired_counts_thirty_days_and_future :
  forall (Date_getTime : string -> option Z) (nowIso : string) (st : State),
    newlyHired Date_getTime nowIso st
    = List.length (filter (withinThirtyDays Date_getTime nowIso) (employees st))
    /\ (forall e : Employee,
          withinThirtyDays Date_getTime nowIso e = true
          <-> exists days,
                daysBetween Date_getTime (hireDate e) nowIso = Some days
                /\ days <= 30)
    /\ (forall (e : Employee) hired now,
          Date_getTime (hireDate e) = Some hired ->
          Date_getTime nowIso = Some now ->
          now < hired ->
          withinThirtyDays Date_getTime nowIso e = true).
Proof.
  intros getTime nowIso st. split; [|split].
  - unfold newlyHired. f_equal. apply filter_ext. intro e.
    apply hiredWithin30_spec.
  - intro e. rewrite <- hiredWithin30_spec. unfold hiredWithin30.
    destruct (daysBetween getTime (hireDate e) nowIso) as [d|].
    + rewrite Z.leb_le. split.
      * intro H. exists d. auto.
      * intros [d' [Hd Hle]]. now inversion Hd; subst.
    + split; [discriminate|]. intros [d' [Hd _]]. discriminate.
  - intros e hired now Hh Hn Hlt. unfold withinThirtyDays. rewrite Hh, Hn.
    apply Z.ltb_lt. unfold msPerDay. lia.
Qed.

Lemma newlyHired_counts_thirty_days_and_future_witness :
  withinThirtyDays Host.Date_getTime Samples.nowIso Samples.nextDecade = true.
Proof.
  apply (proj2 (proj2 (newlyHired_counts_thirty_days_and_future
                         Host.Date_getTime Samples.nowIso Samples.futureHire))
           Samples.nextDecade 1893456000000 1793611800000);
    vm_compute; reflexivity.
Defined.

(** ** Mutations *)

Lemma invalid_iff (fm : Form) :
  invalid fm = true
  <-> name fm = EmptyString \/ employeeId fm = EmptyString
      \/ email (contact fm) = EmptyString.
Proof.
  unfold invalid, isEmpty. rewrite !orb_true_iff, !String.eqb_eq. tauto.
Qed.

Lemma map_unmatched (i : string) (fm : Form) (l : list Employee) :
  (forall x, In x l -> id x <> i) ->
  map (fun x => if String.eqb (id x) i then merge x fm else x) l = l.
Proof.
  induction l as [|y l IH]; intros Hl; [reflexivity|].
  cbn [map]. destruct (String.eqb_spec (id y) i) as [E|_].
  - exfalso. apply (Hl y); [now left | exact E].
  - f_equal. apply IH. intros x Hx. apply Hl. now right.
Qed.

(** C1, as stated, fails: the refusal is not signaled.  For a viewer,
    delete emits nothing and a submit emits only preventDefault, which is
    all that an accepted submit of an admin emits; nothing tells the
    caller that the operation was refused. *)
Lemma viewer_refusal_is_silent :
  canEdit Samples.viewerState = false
  /\ remove true (id Samples.ada1) Samples.viewerState = (Samples.viewerState, [])
  /\ upsert "k3x9z" Samples.today Samples.viewerState
     = (Samples.viewerState, [PreventDefault])
  /\ canEdit MoreSamples.adding = true
  /\ employees (fst (upsert "k3x9z" Samples.today MoreSamples.adding))
     = mkEmployee "k3x9z" (fields MoreSamples.draft) :: employees MoreSamples.adding
  /\ snd (upsert "k3x9z" Samples.today Samples.viewerState)
     = snd (upsert "k3x9z" Samples.today MoreSamples.adding).
Proof. repeat split. Qed.

(** C1, amended: for a caller without write capability, delete, create and
    update are refused without any change of state, the employee
    collection included, and silently: delete emits nothing and a submit
    emits only preventDefault, the same as an accepted submit.  A
    validation failure raises the validation alert, which a refusal never
    does; that absence is all that tells the two apart. *)
Theorem viewer_mutations_refused_silently :
  forall st : State,
    canEdit st = false ->
    (forall confirmed id0, remove confirmed id0 st = (st, []))
    /\ (forall fresh today, upsert fresh today st = (st, [PreventDefault]))
    /\ (forall fresh today fresh' today' st',
          canEdit st' = true ->
          invalid (form st') = false ->
          snd (upsert fresh today st) = snd (upsert fresh' today' st'))
    /\ (forall fresh today fresh' today' st',
          canEdit st' = true ->
          invalid (form st') = true ->
          In validationAlert (snd (upsert fresh' today' st'))
          /\ ~ In validationAlert (snd (upsert fresh today st))).
Proof.
  intros st Hview.
  assert (R : forall fresh today, upsert fresh today st = (st, [PreventDefault])).
  { intros. unfold upsert. now rewrite Hview. }
  split; [|split; [exact R|split]].
  - intros. unfold remove. now rewrite Hview.
  - intros fresh today fresh' today' st' Hedit Hvalid.
    rewrite R. unfold upsert. now rewrite Hedit, Hvalid.
  - intros fresh today fresh' today' st' Hedit Hinvalid.
    rewrite R. unfold upsert. rewrite Hedit, Hinvalid. cbn [negb snd]. split.
    + right. now left.
    + intros [H|[]]. discriminate.
Qed.

Lemma viewer_mutations_refused_silently_witness :
  upsert "k3x9z" Samples.today Samples.viewerState
  = (Samples.viewerState, [PreventDefault]).
Proof.
  apply (proj1 (proj2 (viewer_mutations_refused_silently Samples.viewerState
                         eq_refl))).
Defined.

(** C5: with write capability, submitting a draft whose name, employeeId
    or contact.email is empty alerts the validation message and leaves
    the state, hence the collection, its length and its contents, as it
    was. *)
Theorem create_with_empty_required_field_rejected :
  forall (st : State) (fresh today : string),
    canEdit st = true ->
    name (form st) = EmptyString \/ employeeId (form st) = EmptyString
    \/ email (contact (form st)) = EmptyString ->
    upsert fresh today st = (st, [PreventDefault; validationAlert])
    /\ employees (fst (upsert fresh today st)) = employees st
    /\ List.length (employees (fst (upsert fresh today st)))
       = List.length (employees st).
Proof.
  intros st fresh today Hedit Hempty. apply invalid_iff in Hempty.
  assert (E : upsert fresh today st = (st, [PreventDefault; validationAlert])).
  { unfold upsert. now rewrite Hedit, Hempty. }
  rewrite E. auto.
Qed.

Lemma create_with_empty_required_field_rejected_witness :
  upsert "k3x9z" Samples.today Samples.adminState
  = (Samples.adminState, [PreventDefault; validationAlert]).
Proof.
  apply (create_with_empty_required_field_rejected
           Samples.adminState "k3x9z" Samples.today eq_refl).
  left. reflexivity.
Defined.

(** C6: an update whose id matches no record of the collection leaves the
    collection as it was, so the text persisted for it is the same; the
    handler has no throwing step. *)
Theorem update_of_unknown_id_is_noop :
  forall (st : State) (fresh today i : string) (JSON_stringify : json -> string),
    editingId st = Some i ->
    i <> EmptyString ->
    (forall x, In x (employees st) -> id x <> i) ->
    employees (fst (upsert fresh today st)) = employees st
    /\ persistEmployees JSON_stringify (fst (upsert fresh today st))
       = persistEmployees JSON_stringify st.
Proof.
  intros st fresh today i stringify Hid Hne Hno.
  assert (E : employees (fst (upsert fresh today st)) = employees st).
  { unfold upsert.
    destruct (negb (canEdit st)); [reflexivity|].
    destruct (invalid (form st)); [reflexivity|].
    rewrite Hid. unfold isEmpty.
    destruct (String.eqb_spec i EmptyString) as [E|_]; [contradiction|].
    cbn. now apply map_unmatched. }
  split; [exact E|]. unfold persistEmployees. now rewrite E.
Qed.

Lemma update_of_unknown_id_is_noop_witness :
  employees (fst (upsert "k3x9z" Samples.today Samples.staleEdit))
  = employees Samples.staleEdit.
Proof.
  apply (proj1 (@update_of_unknown_id_is_noop Samples.staleEdit "k3x9z"
                  Samples.today "k3x9a" Host.JSON_stringify eq_refl
                  ltac:(discriminate)
                  ltac:(intros x [<-|[]]; discriminate))).
Defined.

(** ** Export *)

Lemma string_of_list_ascii_app (l1 l2 : list ascii) :
  string_of_list_ascii (l1 ++ l2)
  = (string_of_list_ascii l1 ++ string_of_list_ascii l2)%string.
Proof.
  induction l1 as [|c l1 IH]; [reflexivity|]. cbn. now rewrite IH.
Qed.

Lemma doubleQuotes_flat_map (s : string) :
  doubleQuotes s
  = string_of_list_ascii
      (flat_map (fun c => if Ascii.eqb c dquote then [dquote; dquote] else [c])
                (list_ascii_of_string s)).
Proof.
  induction s as [|c s IH]; [reflexivity|].
  cbn [doubleQuotes list_ascii_of_string flat_map].
  destruct (Ascii.eqb c dquote); cbn; now rewrite IH.
Qed.

Lemma esc_quotedField (s : string) : esc (Some s) = quotedField s.
Proof.
  unfold esc, quotedField. cbn [string_of_list_ascii].
  now rewrite string_of_list_ascii_app, doubleQuotes_flat_map.
Qed.

Lemma csvRow_keys (e : Employee) :
  String.concat comma (Object_keys (csvRow e)) = csvHeader.
Proof. reflexivity. Qed.

Lemma csvRow_values (e : Employee) :
  map (get (csvRow e)) (Object_keys (csvRow e)) = map Some (csvColumns e).
Proof. reflexivity. Qed.

Lemma csvRow_line (e x : Employee) :
  map (fun h => esc (get (csvRow x) h)) (Object_keys (csvRow e))
  = map quotedField (csvColumns x).
Proof.
  change (Object_keys (csvRow e)) with (Object_keys (csvRow x)).
  rewrite <- (map_map (get (csvRow x)) esc), csvRow_values, map_map.
  apply map_ext. intro v. apply esc_quotedField.
Qed.

(** C10: for the empty collection the CSV export is the empty text, with
    no header line. *)
Theorem exportCSV_of_empty_collection_is_empty :
  forall st : State,
    employees st = [] ->
    exportCSV st = [Download "employees.csv" "text/csv;charset=utf-8;" EmptyString].
Proof.
  intros st Hnone. unfold exportCSV. now rewrite Hnone.
Qed.

Lemma exportCSV_of_empty_collection_is_empty_witness :
  exportCSV Samples.emptyRoster
  = [Download "employees.csv" "text/csv;charset=utf-8;" EmptyString].
Proof.
  apply (exportCSV_of_empty_collection_is_empty Samples.emptyRoster eq_refl).
Defined.

(** C7: for a non-empty collection the CSV export is the header line of
    the fourteen column names in the fixed order, followed by one line per
    record; a line is the record's fourteen values in that order, each
    between double quotes with every embedded double quote doubled, joined
    by commas; an absent supervisor or photoUrl is the empty text.  The
    value [She said "hi"] is written with its two quotes doubled. *)
Theorem exportCSV_header_and_quoting :
  forall (st : State) (e : Employee) (es : list Employee),
    employees st = e :: es ->
    exportCSV st
    = [Download "employees.csv" "text/csv;charset=utf-8;"
         (String.concat newline
            (csvHeader
             :: map (fun x => String.concat comma (map quotedField (csvColumns x)))
                    (e :: es)))]
    /\ quotedField Samples.sheSaidHi = Samples.sheSaidHiQuoted
    /\ quotedField EmptyString = String dquote (String dquote EmptyString)
    /\ (forall x : Employee,
          List.length (csvColumns x) = 14%nat
          /\ (supervisor x = None -> nth 5 (csvColumns x) "-" = EmptyString)
          /\ (photoUrl x = None -> nth 13 (csvColumns x) "-" = EmptyString)).
Proof.
  intros st e es Hrows. split; [|split; [|split]].
  - unfold exportCSV, toCSV. rewrite Hrows.
    cbn [map]. rewrite csvRow_keys. rewrite (csvRow_line e e).
    do 3 f_equal. rewrite map_map. do 2 f_equal.
    apply map_ext. intro x. f_equal. apply csvRow_line.
  - vm_compute. reflexivity.
  - reflexivity.
  - intro x. split; [reflexivity|]. split; intros H; cbn; now rewrite H.
Qed.

Lemma exportCSV_header_and_quoting_witness :
  exportCSV Samples.adminState
  = [Download "employees.csv" "text/csv;charset=utf-8;"
       (String.concat newline
          (csvHeader
           :: map (fun x => String.concat comma (map quotedField (csvColumns x)))
                  [Samples.ada1; Samples.ada2]))].
Proof.
  apply (proj1 (@exportCSV_header_and_quoting Samples.adminState Samples.ada1
                  [Samples.ada2] eq_refl)).
Defined.

Lemma Employee_ids_in_json (l : list Employee) :
  map (fun v => prop v "id") (map Employee_toJSON l)
  = map (fun e => Some (JStr (id e))) l.
Proof. rewrite map_map. apply map_ext. reflexivity. Qed.

Lemma Employee_ids_in_rows (l : list Employee) :
  map (fun r => get r "id") (map csvRow l) = map (fun e => Some (id e)) l.
Proof. rewrite map_map. apply map_ext. reflexivity. Qed.

Lemma Department_value_inj (a b : Department) :
  Department_value a = Department_value b -> a = b.
Proof. destruct a, b; intro H; try reflexivity; discriminate. Qed.

Lemma Role_value_inj (a b : Role) : Role_value a = Role_value b -> a = b.
Proof. destruct a, b; intro H; try reflexivity; discriminate. Qed.

Lemma Status_value_inj (a b : Status) : Status_value a = Status_value b -> a = b.
Proof. destruct a, b; intro H; try reflexivity; discriminate. Qed.

Lemma ContractType_value_inj (a b : ContractType) :
  ContractType_value a = ContractType_value b -> a = b.
Proof. destruct a, b; intro H; try reflexivity; discriminate. Qed.

(** The object written for a record determines the record: two
    records have the same JSON object only if they are equal, so the JSON
    export and the persisted text lose no field and keep an absent
    optional field apart from an empty one. *)
Lemma Employee_toJSON_loses_nothing :
  forall e1 e2 : Employee, Employee_toJSON e1 = Employee_toJSON e2 <-> e1 = e2.
Proof.
  intros e1 e2. split; [|now intros ->]. revert e1 e2.
  intros [i1 [n1 c1 d1 r1 s1 t1 k1 h1 [p1 m1 en1 ep1] u1]]
         [i2 [n2 c2 d2 r2 s2 t2 k2 h2 [p2 m2 en2 ep2] u2]].
  unfold Employee_toJSON, ContactInfo_toJSON. cbn.
  destruct s1 as [s1|], s2 as [s2|], u1 as [u1|], u2 as [u2|]; cbn;
    intro H; inversion H; subst;
    repeat match goal with
      | E : Department_value _ = Department_value _ |- _ =>
          apply Department_value_inj in E; subst
      | E : Role_value _ = Role_value _ |- _ => apply Role_value_inj in E; subst
      | E : Status_value _ = Status_value _ |- _ => apply Status_value_inj in E; subst
      | E : ContractType_value _ = ContractType_value _ |- _ =>
          apply ContractType_value_inj in E; subst
      end;
    reflexivity.
Qed.

Lemma toCSV_of_records (e : Employee) (es : list Employee) :
  toCSV (map csvRow (e :: es))
  = String.concat newline
      (csvHeader
       :: map (fun x => String.concat comma (map quotedField (csvColumns x)))
              (e :: es)).
Proof.
  unfold toCSV. cbn [map]. rewrite csvRow_keys. rewrite (csvRow_line e e).
  do 2 f_equal. rewrite map_map. f_equal.
  apply map_ext. intro x. f_equal. apply csvRow_line.
Qed.

Lemma map_injective (A B : Type) (f : A -> B) :
  (forall a b, f a = f b -> a = b) ->
  forall l1 l2, map f l1 = map f l2 -> l1 = l2.
Proof.
  intros Hf. induction l1 as [|x l1 IH]; intros [|y l2] H; try discriminate.
  - reflexivity.
  - cbn [map] in H. injection H as Hx Hl. f_equal; [now apply Hf | now apply IH].
Qed.

Lemma map_Employee_toJSON_inj (l1 l2 : list Employee) :
  map Employee_toJSON l1 = map Employee_toJSON l2 -> l1 = l2.
Proof.
  apply map_injective. intros a b. apply Employee_toJSON_loses_nothing.
Qed.

(** C8: whatever the search text, the four filters, the sort key and the
    sort direction are, the JSON export is the serialisation of the array
    of the objects of all records of the collection, in the collection's
    order, and that array determines the collection; the CSV export of a
    non-empty collection is the header line followed by one line for every
    record of the collection, in the collection's order, holding the
    fourteen quoted values of that record. *)
Theorem exports_cover_whole_collection :
  forall (JSON_stringify_pretty : json -> string) (st : State)
         (q' fDept' fRole' fStatus' fContract' : string)
         (sortKey' : SortKey) (sortDir' : SortDir),
    let view := setQuery q' fDept' fRole' fStatus' fContract' sortKey' sortDir' st in
    let objects := map Employee_toJSON (employees st) in
    exportJSON JSON_stringify_pretty view
    = [Download "employees.json" "application/json"
         (JSON_stringify_pretty (JArr objects))]
    /\ (forall others : list Employee,
          map Employee_toJSON others = objects -> others = employees st)
    /\ map (fun v => prop v "id") objects
       = map (fun e => Some (JStr (id e))) (employees st)
    /\ exportCSV view
       = [Download "employees.csv" "text/csv;charset=utf-8;"
            match employees st with
            | [] => EmptyString
            | _ :: _ =>
                String.concat newline
                  (csvHeader
                   :: map (fun x => String.concat comma
                                      (map quotedField (csvColumns x)))
                          (employees st))
            end]
    /\ exportJSON JSON_stringify_pretty view = exportJSON JSON_stringify_pretty st
    /\ exportCSV view = exportCSV st.
Proof.
  intros pretty st q' d r s c k dir view objects. subst view objects.
  split; [reflexivity|]. split; [|split; [|split; [|split; reflexivity]]].
  - intros others H. now apply map_Employee_toJSON_inj.
  - apply Employee_ids_in_json.
  - unfold exportCSV. cbn [employees setQuery].
    destruct (employees st) as [|e es]; [reflexivity|].
    now rewrite toCSV_of_records.
Qed.

Lemma exports_cover_whole_collection_witness :
  [Samples.ada1; Samples.ada2] = employees Samples.salesOnly.
Proof.
  apply (proj1 (proj2 (exports_cover_whole_collection Host.JSON_stringify
                         Samples.adminState EmptyString "Sales" "All" "All" "All"
                         key_name asc))
           [Samples.ada1; Samples.ada2] eq_refl).
Defined.

(** The view of [Samples.salesOnly] shows one record; both exports still
    hold the two records of the collection. *)
Lemma export_is_not_the_view :
  map id (filtered Host.localeCompare Host.toLowerCase Host.trim Samples.salesOnly)
  = [id Samples.ada2]
  /\ exportCSV Samples.salesOnly = exportCSV Samples.adminState
  /\ exportJSON Host.JSON_stringify Samples.salesOnly
     = exportJSON Host.JSON_stringify Samples.adminState.
Proof. repeat split. Qed.

(** ** Loading *)

Lemma length_truthy (n : nat) :
  truthy (JNum (inject_Z (Z.of_nat n))) = negb (Nat.eqb n 0).
Proof. destruct n; reflexivity. Qed.

Lemma length_zero_empty (s : string) : Nat.eqb (String.length s) 0 = isEmpty s.
Proof. destruct s; reflexivity. Qed.

Lemma filter_none (T : Type) (p : T -> bool) (l : list T) :
  forallb (fun v => negb (p v)) l = true -> filter p l = [].
Proof.
  induction l as [|y r IH]; [reflexivity|].
  cbn [forallb filter]. intro H. apply andb_true_iff in H as [Hy Hr].
  apply negb_true_iff in Hy. rewrite Hy. now apply IH.
Qed.

Section InitialiserFacts.
Variable JSON_parse : string -> option json.
Variable JSON_stringify : json -> string.
Variable seed : list Employee.
Variable ls : Storage.

Let cached : json := loadJSON JSON_parse ls LS_KEYS.employees (JArr []).
Let installsSeed : completion (list json) * list Effect :=
  (Normal (seed_json seed),
   saveJSON JSON_stringify LS_KEYS.employees (JArr (seed_json seed))).

(** The three ways the initialiser ends, by the value [loadJSON] gave. *)
Lemma employees_init_cases :
  employees_init JSON_parse JSON_stringify seed ls
  = match cached with
    | JNull => (Throw "Cannot read properties of null (reading 'length')", [])
    | v => if lacksLength v then installsSeed else (filter_of v, [])
    end.
Proof.
  unfold employees_init. fold cached. subst installsSeed.
  destruct cached as [|b|x|s|items|props]; cbn [length_of lacksLength];
    try reflexivity.
  - rewrite length_truthy, length_zero_empty. now destruct (isEmpty s).
  - rewrite length_truthy. now destruct items.
  - destruct (getOwn "length" props) as [v|]; [|reflexivity].
    now destruct (truthy v).
Qed.

Lemma employees_init_array (x : json) (l : list json) :
  cached = JArr (x :: l) ->
  employees_init JSON_parse JSON_stringify seed ls
  = (Normal (filter isEmployee (x :: l)), []).
Proof. intro H. rewrite employees_init_cases, H. reflexivity. Qed.

Lemma employees_init_seed_iff :
  employees_init JSON_parse JSON_stringify seed ls = installsSeed
  <-> lacksLength cached = true.
Proof.
  rewrite employees_init_cases. subst installsSeed.
  destruct cached as [|b|x|s|items|props] eqn:E; cbn [lacksLength];
    try (split; [discriminate | discriminate]);
    try (split; [reflexivity | reflexivity]);
    match goal with
    | |- context [if ?c then _ else _] =>
        destruct c; split; auto; try discriminate
    end.
Qed.

Lemma loadJSON_fallback :
  ls LS_KEYS.employees = None
  \/ ls LS_KEYS.employees = Some EmptyString
  \/ (exists s, ls LS_KEYS.employees = Some s /\ JSON_parse s = None) ->
  cached = JArr [].
Proof.
  subst cached. unfold loadJSON.
  intros [H|[H|[s [H Hs]]]]; rewrite H; try reflexivity.
  rewrite Hs. now destruct (String.eqb s EmptyString).
Qed.

Lemma loadJSON_parsed (s : string) (v : json) :
  ls LS_KEYS.employees = Some s -> s <> EmptyString ->
  JSON_parse s = Some v -> cached = v.
Proof.
  subst cached. unfold loadJSON. intros H Hne Hv. rewrite H, Hv.
  destruct (String.eqb_spec s EmptyString); [contradiction | reflexivity].
Qed.
End InitialiserFacts.

(** Loading an array with one well-formed and one malformed entry keeps
    the well-formed one. *)
Lemma employees_init_drops_malformed_entry :
  employees_init Samples.JSON_parse Host.JSON_stringify Samples.seed
    (Samples.storing (Host.JSON_stringify (JArr [Samples.wellFormed; Samples.noName])))
  = (Normal [Samples.wellFormed], []).
Proof. vm_compute. reflexivity. Qed.

(** The guard looks at the type of [contact] only, and [null] has the
    type of an object: a record without contact data passes. *)
Lemma isEmployee_accepts_null_contact : isEmployee Samples.nullContact = true.
Proof. reflexivity. Qed.

(** Every record of the collection, once serialised, passes the guard. *)
Lemma isEmployee_of_Employee (e : Employee) : isEmployee (Employee_toJSON e) = true.
Proof. destruct e as [i [n c d r [s|] t k h ct [u|]]]; reflexivity. Qed.

(** C4, at the failing input: when the stored text is the JSON literal
    null, the initialiser throws while reading its length. *)
Theorem employees_init_throws_on_stored_null :
  forall (JSON_parse : string -> option json) (JSON_stringify : json -> string)
         (seed : list Employee) (ls : Storage),
    ls LS_KEYS.employees = Some "null" ->
    JSON_parse "null" = Some JNull ->
    employees_init JSON_parse JSON_stringify seed ls
    = (Throw "Cannot read properties of null (reading 'length')", []).
Proof.
  intros parse stringify seed ls Hls Hparse.
  rewrite employees_init_cases.
  rewrite (@loadJSON_parsed parse ls "null" JNull Hls ltac:(discriminate) Hparse).
  reflexivity.
Qed.

Lemma employees_init_throws_on_stored_null_witness :
  employees_init Samples.JSON_parse Host.JSON_stringify Samples.seed
    (Samples.storing "null")
  = (Throw "Cannot read properties of null (reading 'length')", []).
Proof.
  apply (@employees_init_throws_on_stored_null Samples.JSON_parse
           Host.JSON_stringify Samples.seed (Samples.storing "null")
           eq_refl eq_refl).
Defined.

(** C9, as stated, fails in its second half: the stored text of the empty
    object is present, parses, is not an empty array, and the seed is
    installed. *)
Lemma seed_installed_for_stored_empty_object :
  Samples.storing "{}" LS_KEYS.employees = Some "{}"
  /\ Samples.JSON_parse "{}" = Some (JObj [])
  /\ employees_init Samples.JSON_parse Host.JSON_stringify Samples.seed
       (Samples.storing "{}")
     = (Normal (seed_json Samples.seed),
        saveJSON Host.JSON_stringify LS_KEYS.employees
                 (JArr (seed_json Samples.seed))).
Proof. repeat split; vm_compute; reflexivity. Qed.

(** C9, amended: if the persisted collection is a non-empty array in which
    every entry fails the guard, loading yields the empty collection and
    writes nothing.  The seed is installed exactly when the value read
    back has no truthy length: the fallback of an absent, empty or
    unparseable text, an empty array, an empty string, a number, a
    boolean, or an object without a truthy length property. *)
Theorem seed_installed_iff_no_truthy_length :
  forall (JSON_parse : string -> option json) (JSON_stringify : json -> string)
         (seed : list Employee) (ls : Storage),
    let cached := loadJSON JSON_parse ls LS_KEYS.employees (JArr []) in
    let loaded := employees_init JSON_parse JSON_stringify seed ls in
    (forall x l,
        cached = JArr (x :: l) ->
        forallb (fun v => negb (isEmployee v)) (x :: l) = true ->
        loaded = (Normal [], []))
    /\ (loaded = (Normal (seed_json seed),
                  saveJSON JSON_stringify LS_KEYS.employees (JArr (seed_json seed)))
        <-> lacksLength cached = true)
    /\ (ls LS_KEYS.employees = None
        \/ ls LS_KEYS.employees = Some EmptyString
        \/ (exists s, ls LS_KEYS.employees = Some s /\ JSON_parse s = None) ->
        cached = JArr [] /\ lacksLength cached = true).
Proof.
  intros parse stringify seed ls cached loaded. subst cached loaded.
  split; [|split].
  - intros x l Harr Hbad. rewrite (employees_init_array _ _ _ _ Harr).
    now rewrite (filter_none _ _ Hbad).
  - apply employees_init_seed_iff.
  - intro H. rewrite (loadJSON_fallback _ _ H). split; reflexivity.
Qed.

Lemma seed_installed_iff_no_truthy_length_witness :
  employees_init Samples.JSON_parse Host.JSON_stringify Samples.seed
    (Samples.storing (Host.JSON_stringify (JArr [Samples.noName; Samples.justText])))
  = (Normal [], []).
Proof.
  apply (proj1 (seed_installed_iff_no_truthy_length Samples.JSON_parse
                  Host.JSON_stringify Samples.seed
                  (Samples.storing
                     (Host.JSON_stringify (JArr [Samples.noName; Samples.justText]))))
           Samples.noName [Samples.justText]);
    vm_compute; reflexivity.
Defined.

(** * Further properties *)

(** ** The query view *)

Lemma prefix_spec (sub s : string) :
  String.prefix sub s = true <-> exists post, s = (sub ++ post)%string.
Proof.
  revert s. induction sub as [|c sub IH]; intro s.
  - split; [intros _; now exists s | now destruct s].
  - destruct s as [|d s]; cbn [String.prefix].
    + split; [discriminate | intros [post H]; discriminate].
    + destruct (Ascii.ascii_dec c d) as [->|Hne].
      * rewrite IH. split; intros [post H]; exists post.
        -- cbn. now rewrite H.
        -- cbn in H. now inversion H.
      * split; [discriminate|]. intros [post H]. cbn in H. congruence.
Qed.

Lemma includes_spec (s sub : string) :
  includes s sub = true <-> exists pre post, s = (pre ++ sub ++ post)%string.
Proof.
  induction s as [|c s IH]; cbn [includes]; rewrite orb_true_iff, prefix_spec.
  - split.
    + intros [[post H]|H]; [|discriminate]. now exists EmptyString, post.
    + intros [pre [post H]]. left. destruct pre; [now exists post | discriminate].
  - rewrite IH. split.
    + intros [[post H]|[pre [post H]]].
      * now exists EmptyString, post.
      * exists (String c pre), post. cbn. now rewrite H.
    + intros [pre [post H]]. destruct pre as [|d pre].
      * left. now exists post.
      * right. cbn in H. inversion H. now exists pre, post.
Qed.

Lemma filtered_Permutation (localeCompare : string -> string -> Z)
    (toLowerCase trim : string -> string) (st : State) :
  Permutation (filtered localeCompare toLowerCase trim st)
              (filter (keeps toLowerCase trim st) (employees st)).
Proof.
  rewrite <- selected_is_filter. unfold filtered, sortByKey.
  destruct (sortKey st), (sortDir st);
    try apply Array_sort_Permutation;
    (eapply Permutation_trans;
     [apply Permutation_sym, Permutation_rev | apply Array_sort_Permutation]).
Qed.

(** X1: the view holds exactly the records of the collection that pass the
    search box and the four selects, each as often as the collection
    does. *)
Theorem view_permutes_matching_records :
  forall (localeCompare : string -> string -> Z) (toLowerCase trim : string -> string)
         (st : State),
    Permutation (filtered localeCompare toLowerCase trim st)
                (filter (keeps toLowerCase trim st) (employees st))
    /\ (forall e, In e (filtered localeCompare toLowerCase trim st)
                  <-> In e (employees st) /\ keeps toLowerCase trim st e = true)
    /\ (List.length (filtered localeCompare toLowerCase trim st) <= total st)%nat.
Proof.
  intros lc lower trim st.
  pose proof (filtered_Permutation lc lower trim st) as P.
  split; [exact P|]. split.
  - intro e. rewrite <- filter_In. split; intro H.
    + now apply (Permutation_in _ P).
    + now apply (Permutation_in _ (Permutation_sym P)).
  - rewrite (Permutation_length P). apply filter_length_le.
Qed.

(** X2: with a blank search box and the four selects on All, the view is
    the whole collection, reordered. *)
Theorem view_without_criteria_shows_all :
  forall (localeCompare : string -> string -> Z) (toLowerCase trim : string -> string)
         (st : State),
    trim (q st) = EmptyString ->
    fDept st = "All" -> fRole st = "All" -> fStatus st = "All" ->
    fContract st = "All" ->
    Permutation (filtered localeCompare toLowerCase trim st) (employees st)
    /\ List.length (filtered localeCompare toLowerCase trim st) = total st.
Proof.
  intros lc lower trim st Hq Hd Hr Hs Hc.
  assert (P : Permutation (filtered lc lower trim st) (employees st)).
  { eapply Permutation_trans; [apply filtered_Permutation|].
    replace (filter (keeps lower trim st) (employees st)) with (employees st);
      [apply Permutation_refl|].
    induction (employees st) as [|e l IH]; [reflexivity|].
    cbn [filter]. unfold keeps at 1. rewrite Hq, Hd, Hr, Hs, Hc. cbn.
    now rewrite <- IH. }
  split; [exact P | apply (Permutation_length P)].
Qed.

Lemma view_without_criteria_shows_all_witness :
  Permutation
    (filtered Host.localeCompare Host.toLowerCase Host.trim Samples.twoAdasDesc)
    (employees Samples.twoAdasDesc).
Proof.
  apply (proj1 (@view_without_criteria_shows_all Host.localeCompare
                  Host.toLowerCase Host.trim Samples.twoAdasDesc
                  eq_refl eq_refl eq_refl eq_refl eq_refl)).
Defined.

(** X3: a select set to a value that names no member of its enum leaves
    the view empty. *)
Theorem view_of_unknown_filter_value_is_empty :
  forall (localeCompare : string -> string -> Z) (toLowerCase trim : string -> string)
         (st : State),
    (fDept st <> "All" /\ forall d, Department_value d <> fDept st)
    \/ (fRole st <> "All" /\ forall r, Role_value r <> fRole st)
    \/ (fStatus st <> "All" /\ forall s, Status_value s <> fStatus st)
    \/ (fContract st <> "All" /\ forall c, ContractType_value c <> fContract st) ->
    filtered localeCompare toLowerCase trim st = [].
Proof.
  intros lc lower trim st H.
  apply Permutation_nil, Permutation_sym.
  eapply Permutation_trans; [apply filtered_Permutation|].
  replace (filter (keeps lower trim st) (employees st)) with (@nil Employee);
    [apply Permutation_refl|].
  induction (employees st) as [|e l IH]; [reflexivity|].
  cbn [filter]. rewrite <- IH.
  assert (K : keeps lower trim st e = false); [|now rewrite K].
  unfold keeps.
  destruct H as [[Hn Hv]|[[Hn Hv]|[[Hn Hv]|[Hn Hv]]]];
    apply String.eqb_neq in Hn; rewrite Hn; cbn [orb];
    match goal with
    | |- context [String.eqb (?value ?x) ?f] =>
        let E := fresh in
        assert (E : String.eqb (value x) f = false)
          by (apply String.eqb_neq, Hv);
        rewrite E
    end;
    now rewrite ?andb_false_r.
Qed.

Lemma view_of_unknown_filter_value_is_empty_witness :
  filtered Host.localeCompare Host.toLowerCase Host.trim MoreSamples.strayFilter = [].
Proof.
  apply (@view_of_unknown_filter_value_is_empty Host.localeCompare
           Host.toLowerCase Host.trim MoreSamples.strayFilter).
  left. split; [discriminate | intros []; discriminate].
Defined.

Lemma matchesSearch_spec (toLowerCase : string -> string) (needle : string)
    (e : Employee) :
  matchesSearch toLowerCase needle e = true
  <-> exists v pre post,
        In v [name e; employeeId e; email (contact e)]
        /\ toLowerCase v = (pre ++ needle ++ post)%string.
Proof.
  unfold matchesSearch. rewrite existsb_exists. split.
  - intros [v [Hin Hv]]. apply includes_spec in Hv as [pre [post Hv]].
    now exists v, pre, post.
  - intros [v [pre [post [Hin Hv]]]]. exists v. split; [exact Hin|].
    apply includes_spec. now exists pre, post.
Qed.

(** X4: with the four selects on All, a record of the collection is in the
    view exactly when the search text trims to nothing, in which case no
    search is applied, or the search text as typed (not trimmed), in lower
    case, occurs as a contiguous part of the lower-cased name, employeeId
    or contact email of the record. *)
Theorem search_is_substring_of_name_id_or_email :
  forall (localeCompare : string -> string -> Z) (toLowerCase trim : string -> string)
         (st : State) (e : Employee),
    fDept st = "All" -> fRole st = "All" -> fStatus st = "All" ->
    fContract st = "All" ->
    (In e (filtered localeCompare toLowerCase trim st)
     <-> In e (employees st)
         /\ (trim (q st) = EmptyString
             \/ exists v pre post,
                  In v [name e; employeeId e; email (contact e)]
                  /\ toLowerCase v = (pre ++ toLowerCase (q st) ++ post)%string)).
Proof.
  intros lc lower trim st e Hd Hr Hs Hc.
  pose proof (filtered_Permutation lc lower trim st) as P.
  assert (K : keeps lower trim st e = true
              <-> trim (q st) = EmptyString
                  \/ exists v pre post,
                       In v [name e; employeeId e; email (contact e)]
                       /\ lower v = (pre ++ lower (q st) ++ post)%string).
  { unfold keeps. rewrite Hd, Hr, Hs, Hc. cbn [String.eqb orb].
    rewrite ?String.eqb_refl. cbn [orb]. rewrite !andb_true_r.
    rewrite orb_true_iff, matchesSearch_spec. unfold isEmpty.
    now rewrite String.eqb_eq. }
  rewrite <- K, <- filter_In. split; intro H.
  - now apply (Permutation_in _ P).
  - now apply (Permutation_in _ (Permutation_sym P)).
Qed.

Lemma search_is_substring_of_name_id_or_email_witness :
  In Samples.ada1
     (filtered Host.localeCompare Host.toLowerCase Host.trim MoreSamples.searching)
  <-> In Samples.ada1 (employees MoreSamples.searching)
      /\ (Host.trim (q MoreSamples.searching) = EmptyString
          \/ exists v pre post,
               In v [name Samples.ada1; employeeId Samples.ada1;
                     email (contact Samples.ada1)]
               /\ Host.toLowerCase v
                  = (pre ++ Host.toLowerCase (q MoreSamples.searching) ++ post)%string).
Proof.
  apply (@search_is_substring_of_name_id_or_email Host.localeCompare
           Host.toLowerCase Host.trim MoreSamples.searching Samples.ada1
           eq_refl eq_refl eq_refl eq_refl).
Defined.

Lemma Host_localeCompare_flips (a b : string) :
  0 < Host.localeCompare a b -> Host.localeCompare b a <= 0.
Proof.
  unfold Host.localeCompare. rewrite (String.compare_antisym b a).
  destruct (String.compare a b); cbn; lia.
Qed.

(** X5: when a positive answer of localeCompare one way means a
    non-positive answer the other way, the view sorted by name or by
    employeeId is, in ascending direction, in non-decreasing order of the
    comparator, and in descending direction the reverse of that list. *)
Theorem view_is_in_collation_order :
  forall (localeCompare : string -> string -> Z) (toLowerCase trim : string -> string)
         (st : State),
    (forall a b, 0 < localeCompare a b -> localeCompare b a <= 0) ->
    sortKey st <> key_hireDate ->
    let compare := compareByKey localeCompare (keyOf (sortKey st)) in
    let ascending := sortByKey localeCompare (keyOf (sortKey st))
                               (selected toLowerCase trim st) asc in
    Sorted (fun a b => compare a b <= 0) ascending
    /\ filtered localeCompare toLowerCase trim st
       = match sortDir st with
         | asc => ascending
         | desc => rev ascending
         end.
Proof.
  intros lc lower trim st Hflip Hkey compare ascending.
  subst compare ascending. split.
  - unfold sortByKey. apply Array_sort_Sorted.
    intros a b. unfold compareByKey.
    rewrite (String.eqb_sym (keyOf (sortKey st) b)).
    destruct (String.eqb (keyOf (sortKey st) a) (keyOf (sortKey st) b));
      [lia | apply Hflip].
  - unfold filtered. destruct (sortKey st); [|congruence|];
      now destruct (sortDir st).
Qed.

Lemma view_is_in_collation_order_witness :
  Sorted (fun a b => compareByKey Host.localeCompare (keyOf key_employeeId) a b <= 0)
         (sortByKey Host.localeCompare (keyOf key_employeeId)
            (selected Host.toLowerCase Host.trim MoreSamples.searching) asc).
Proof.
  apply (proj1 (@view_is_in_collation_order Host.localeCompare Host.toLowerCase
                  Host.trim MoreSamples.searching Host_localeCompare_flips
                  ltac:(discriminate))).
Defined.

(** ** Grouped counts *)

Lemma sumOf_bump (k : string) (counts : list (string * nat)) :
  sumOf (bump k counts) = S (sumOf counts).
Proof.
  unfold sumOf. induction counts as [|[k' n] rest IH]; [reflexivity|].
  cbn [bump]. unfold list_sum in *.
  destruct (String.eqb k k'); cbn [map snd fold_right] in *; lia.
Qed.

Lemma countOf_bump (k k0 : string) (counts : list (string * nat)) :
  countOf k0 (bump k counts)
  = if String.eqb k0 k then S (countOf k0 counts) else countOf k0 counts.
Proof.
  induction counts as [|[k' n] rest IH].
  - cbn. now destruct (String.eqb k0 k).
  - cbn [bump]. destruct (String.eqb_spec k k') as [->|Hne]; cbn [countOf].
    + now destruct (String.eqb k0 k').
    + destruct (String.eqb_spec k0 k') as [->|Hne'].
      * destruct (String.eqb_spec k' k); [congruence | reflexivity].
      * exact IH.
Qed.

Lemma keys_bump (k : string) (counts : list (string * nat)) :
  map fst (bump k counts)
  = if listed k (map fst counts) then map fst counts
    else (map fst counts ++ [k])%list.
Proof.
  unfold listed. induction counts as [|[k' n] rest IH]; [reflexivity|].
  cbn [bump map fst existsb].
  destruct (String.eqb k k'); cbn [orb map fst]; [reflexivity|].
  rewrite IH. now destruct (existsb (String.eqb k) (map fst rest)).
Qed.

Lemma existsb_eqb_app (k : string) (l1 l2 : list string) :
  listed k (l1 ++ l2)%list = listed k l1 || listed k l2.
Proof. apply existsb_app. Qed.

Section CountByFacts.
Variable key : Employee -> string.

Let tally (counts : list (string * nat)) (rows : list Employee) :=
  fold_left (fun c e => bump (key e) c) rows counts.

Lemma tally_sum (rows : list Employee) (counts : list (string * nat)) :
  sumOf (tally counts rows) = (List.length rows + sumOf counts)%nat.
Proof.
  revert counts. induction rows as [|e rows IH]; intro counts; [reflexivity|].
  cbn [tally fold_left]. fold (tally (bump (key e) counts) rows).
  rewrite IH, sumOf_bump. cbn [List.length]. lia.
Qed.

Lemma tally_countOf (k : string) (rows : list Employee) (counts : list (string * nat)) :
  countOf k (tally counts rows)
  = (List.length (filter (fun e => String.eqb (key e) k) rows) + countOf k counts)%nat.
Proof.
  revert counts. induction rows as [|e rows IH]; intro counts; [reflexivity|].
  cbn [tally fold_left]. fold (tally (bump (key e) counts) rows).
  rewrite IH, countOf_bump. cbn [filter]. rewrite (String.eqb_sym (key e) k).
  destruct (String.eqb k (key e)); cbn [List.length]; lia.
Qed.

Lemma tally_keys (rows : list Employee) (counts : list (string * nat)) :
  map fst (tally counts rows)
  = (map fst counts
     ++ filter (fun k => negb (listed k (map fst counts))) (distinct (map key rows)))%list.
Proof.
  revert counts. induction rows as [|e rows IH]; intro counts.
  - cbn. now rewrite app_nil_r.
  - cbn [tally fold_left]. fold (tally (bump (key e) counts) rows).
    rewrite IH, keys_bump. cbn [map distinct filter].
    destruct (listed (key e) (map fst counts)) eqn:Hin; cbn [negb].
    + f_equal. rewrite filter_twice. apply filter_ext_in. intros k _.
      destruct (String.eqb_spec k (key e)) as [->|_]; cbn [negb andb];
        [now rewrite Hin | reflexivity].
    + rewrite <- app_assoc. cbn [app]. do 2 f_equal.
      rewrite filter_twice. apply filter_ext. intro k.
      rewrite existsb_eqb_app. unfold listed at 2. cbn [existsb].
      rewrite orb_false_r, negb_orb. apply andb_comm.
Qed.
End CountByFacts.

Lemma distinct_In (k : string) (ks : list string) : In k (distinct ks) <-> In k ks.
Proof.
  induction ks as [|k' ks IH]; [reflexivity|].
  cbn [distinct In]. rewrite filter_In, IH, negb_true_iff, String.eqb_neq.
  destruct (String.string_dec k' k) as [->|Hne]; [tauto|].
  split; [tauto|]. intros [H|H]; [contradiction|]. right. split; congruence.
Qed.

Lemma NoDup_filter (T : Type) (p : T -> bool) (l : list T) :
  NoDup l -> NoDup (filter p l).
Proof.
  induction 1 as [|x l Hx Hl IH]; [constructor|].
  cbn [filter]. destruct (p x); [|exact IH].
  constructor; [|exact IH]. rewrite filter_In. tauto.
Qed.

Lemma distinct_NoDup (ks : list string) : NoDup (distinct ks).
Proof.
  induction ks as [|k ks IH]; [constructor|].
  cbn [distinct]. constructor; [|now apply NoDup_filter].
  rewrite filter_In, negb_true_iff, String.eqb_neq. tauto.
Qed.

Lemma countBy_keys (key : Employee -> string) (rows : list Employee) :
  map fst (countBy key rows) = distinct (map key rows).
Proof.
  unfold countBy. rewrite tally_keys. cbn [map app listed existsb negb].
  induction (distinct (map key rows)) as [|k l IH]; [reflexivity|].
  cbn [filter]. now rewrite IH.
Qed.

(** X6: the counts by department add up to the size of the collection,
    and so do the counts by status. *)
Theorem grouped_counts_add_up_to_total :
  forall st : State,
    sumOf (byDept st) = total st /\ sumOf (byStatus st) = total st.
Proof.
  intro st. unfold byDept, byStatus, countBy, total.
  split; rewrite tally_sum; cbn; lia.
Qed.

(** X7: the count listed for a department is the number of records in that
    department, a department is listed exactly when some record is in it,
    and likewise for every status. *)
Theorem grouped_counts_count_records :
  forall (st : State) (d : Department) (s : Status),
    countOf (Department_value d) (byDept st)
    = List.length (filter (fun e : Employee =>
                             String.eqb (Department_value (department e))
                                        (Department_value d))
                          (employees st))
    /\ countOf (Status_value s) (byStatus st)
       = List.length (filter (fun e : Employee =>
                                String.eqb (Status_value (status e)) (Status_value s))
                             (employees st))
    /\ (In (Department_value d) (map fst (byDept st))
        <-> exists e : Employee, In e (employees st) /\ department e = d)
    /\ (In (Status_value s) (map fst (byStatus st))
        <-> exists e : Employee, In e (employees st) /\ status e = s).
Proof.
  intros st d s. unfold byDept, byStatus.
  split; [|split; [|split]].
  - unfold countBy. rewrite tally_countOf. cbn. lia.
  - unfold countBy. rewrite tally_countOf. cbn. lia.
  - rewrite countBy_keys, distinct_In, in_map_iff. split.
    + intros [e [Hv He]]. exists e. split; [exact He|].
      destruct (department e), d; try reflexivity; discriminate.
    + intros [e [He Hd]]. exists e. now rewrite Hd.
  - rewrite countBy_keys, distinct_In, in_map_iff. split.
    + intros [e [Hv He]]. exists e. split; [exact He|].
      destruct (status e), s; try reflexivity; discriminate.
    + intros [e [He Hs]]. exists e. now rewrite Hs.
Qed.

(** X8: the groups are listed once each, in the order in which their
    values first occur in the collection. *)
Theorem groups_in_order_of_first_occurrence :
  forall st : State,
    map fst (byDept st)
    = distinct (map (fun e : Employee => Department_value (department e)) (employees st))
    /\ map fst (byStatus st)
       = distinct (map (fun e : Employee => Status_value (status e)) (employees st))
    /\ NoDup (map fst (byDept st))
    /\ NoDup (map fst (byStatus st)).
Proof.
  intro st. unfold byDept, byStatus. rewrite !countBy_keys.
  repeat split; apply distinct_NoDup.
Qed.

(** X9: the "on probation" figure is the count the status breakdown lists
    for Probation, 0 when it lists none. *)
Theorem onProbation_matches_status_breakdown :
  forall st : State,
    onProbation st = countOf (Status_value Probation) (byStatus st).
Proof.
  intro st. unfold onProbation, byStatus, countBy.
  rewrite tally_countOf. cbn [countOf]. rewrite Nat.add_0_r. f_equal.
  apply filter_ext. intro e. now destruct (status e).
Qed.

(** ** The editor *)

Lemma filledIn_valid (fm : Form) : filledIn fm <-> invalid fm = false.
Proof.
  unfold filledIn, invalid, isEmpty.
  rewrite !orb_false_iff, !String.eqb_neq. tauto.
Qed.

Lemma emptyForm_invalid (today : string) : invalid (emptyForm today) = true.
Proof. reflexivity. Qed.

Lemma upsert_accepted (fresh today : string) (st : State) :
  canEdit st = true -> invalid (form st) = false ->
  upsert fresh today st
  = (setForm (emptyForm today)
       (setEditingId None
          (match editingId st with
           | Some i =>
               if isEmpty i
               then setEmployees (fun prev => newEmployee fresh (form st) :: prev) st
               else setEmployees
                      (map (fun x => if String.eqb (id x) i
                                     then merge x (form st) else x)) st
           | None => setEmployees (fun prev => newEmployee fresh (form st) :: prev) st
           end)),
     [PreventDefault]).
Proof. intros Hedit Hvalid. unfold upsert. now rewrite Hedit, Hvalid. Qed.

Lemma ids_filter (id0 : string) (l : list Employee) :
  map id (filter (fun x => negb (String.eqb (id x) id0)) l)
  = filter (fun k => negb (String.eqb k id0)) (map id l).
Proof.
  induction l as [|x l IH]; [reflexivity|].
  cbn [filter map]. destruct (String.eqb (id x) id0); cbn [negb map]; now rewrite IH.
Qed.

Lemma same_id_same_record (l : list Employee) (x y : Employee) :
  NoDup (map id l) -> In x l -> In y l -> id x = id y -> x = y.
Proof.
  induction l as [|z l IH]; [contradiction|].
  cbn [map]. intros Hnd [->|Hx] [->|Hy] Hid; inversion Hnd; subst.
  - reflexivity.
  - exfalso. apply H1. rewrite Hid. now apply in_map.
  - exfalso. apply H1. rewrite <- Hid. now apply in_map.
  - now apply IH.
Qed.

Lemma filter_out_one (id0 : string) (l : list Employee) :
  NoDup (map id l) -> In id0 (map id l) ->
  S (List.length (filter (fun x => negb (String.eqb (id x) id0)) l)) = List.length l.
Proof.
  induction l as [|x l IH]; [contradiction|].
  cbn [map filter]. intros Hnd Hin. inversion Hnd as [|k ks Hk Hks]; subst.
  destruct (String.eqb_spec (id x) id0) as [E|Hne]; cbn [negb List.length].
  - f_equal. subst id0. clear IH Hin Hnd.
    induction l as [|y l IHl]; [reflexivity|].
    cbn [filter map] in *.
    destruct (String.eqb_spec (id y) (id x)) as [E|_]; cbn [negb List.length].
    + exfalso. apply Hk. now left.
    + f_equal. apply IHl.
      * intro H. apply Hk. now right.
      * now inversion Hks.
  - f_equal. apply IH; [exact Hks|]. destruct Hin; [contradiction|assumption].
Qed.

Lemma filter_out_absent (id0 : string) (l : list Employee) :
  ~ In id0 (map id l) ->
  filter (fun x => negb (String.eqb (id x) id0)) l = l.
Proof.
  induction l as [|x l IH]; [reflexivity|].
  cbn [map filter In]. intro Hno.
  destruct (String.eqb_spec (id x) id0) as [E|_]; [tauto|].
  cbn [negb]. f_equal. apply IH. tauto.
Qed.

(** X10: with write capability, a filled-in draft submitted while no edit
    is open becomes a new record at the head of the collection, under the
    id handed out; the records already there keep their places behind it,
    the form is cleared and no alert is raised. *)
Theorem create_prepends_the_draft :
  forall (st : State) (fresh today : string),
    canEdit st = true ->
    filledIn (form st) ->
    editingId st = None ->
    carriedId (form st) = None ->
    upsert fresh today st
    = (setForm (emptyForm today)
         (setEmployees (fun prev => mkEmployee fresh (fields (form st)) :: prev) st),
       [PreventDefault])
    /\ employees (fst (upsert fresh today st))
       = mkEmployee fresh (fields (form st)) :: employees st
    /\ total (fst (upsert fresh today st)) = S (total st).
Proof.
  intros st fresh today Hedit Hfilled Hnone Hcarried.
  apply filledIn_valid in Hfilled.
  rewrite (upsert_accepted fresh today st Hedit Hfilled), Hnone.
  unfold newEmployee. rewrite Hcarried.
  destruct st; cbn in *; subst; auto.
Qed.

Lemma create_prepends_the_draft_witness :
  employees (fst (upsert "k3x9m" Samples.today MoreSamples.adding))
  = mkEmployee "k3x9m" (fields MoreSamples.draft) :: employees MoreSamples.adding.
Proof.
  apply (proj1 (proj2 (@create_prepends_the_draft MoreSamples.adding "k3x9m"
                         Samples.today eq_refl
                         ltac:(repeat split; discriminate) eq_refl eq_refl))).
Defined.

(** X11: with write capability, a filled-in draft submitted while the edit
    of id i is open replaces, in place, every record with that id: the
    record keeps its id, takes every field of the draft, and keeps its own
    supervisor or photoUrl where the draft has none; all other records,
    the order and the number of records are unchanged. *)
Theorem update_replaces_in_place :
  forall (st : State) (fresh today i : string),
    canEdit st = true ->
    filledIn (form st) ->
    editingId st = Some i ->
    i <> EmptyString ->
    carriedId (form st) = None \/ carriedId (form st) = Some i ->
    let fm := form st in
    let after := employees (fst (upsert fresh today st)) in
    after
    = map (fun x : Employee =>
             if String.eqb (id x) i
             then mkEmployee (id x)
                    (mkBase (name fm) (employeeId fm) (department fm) (role fm)
                       (match supervisor fm with Some v => Some v | None => supervisor x end)
                       (status fm) (contractType fm) (hireDate fm) (contact fm)
                       (match photoUrl fm with Some v => Some v | None => photoUrl x end))
             else x)
          (employees st)
    /\ map id after = ids st
    /\ List.length after = total st.
Proof.
  intros st fresh today i Hedit Hfilled Hid Hne Hcarried fm after.
  subst fm after. apply filledIn_valid in Hfilled.
  rewrite (upsert_accepted fresh today st Hedit Hfilled), Hid.
  unfold isEmpty. destruct (String.eqb_spec i EmptyString) as [E|_]; [contradiction|].
  cbn [fst setForm setEditingId setEmployees employees].
  assert (M : map (fun x => if String.eqb (id x) i then merge x (form st) else x)
                  (employees st)
              = map (fun x : Employee =>
                       if String.eqb (id x) i
                       then mkEmployee (id x)
                              (mkBase (name (form st)) (employeeId (form st))
                                 (department (form st)) (role (form st))
                                 (match supervisor (form st) with
                                  | Some v => Some v | None => supervisor x end)
                                 (status (form st)) (contractType (form st))
                                 (hireDate (form st)) (contact (form st))
                                 (match photoUrl (form st) with
                                  | Some v => Some v | None => photoUrl x end))
                       else x)
                    (employees st)).
  { apply map_ext. intro x. destruct (String.eqb_spec (id x) i) as [E|_]; [|reflexivity].
    unfold merge, orElse.
    assert (I : match carriedId (form st) with Some j => j | None => id x end = id x)
      by (destruct Hcarried as [H|H]; rewrite H; congruence).
    rewrite I.
    now destruct (supervisor (form st)), (photoUrl (form st)). }
  rewrite M. split; [reflexivity|]. split.
  - unfold ids. rewrite map_map. apply map_ext. intro x.
    now destruct (String.eqb (id x) i).
  - unfold total. apply length_map.
Qed.

Lemma update_replaces_in_place_witness :
  map id (employees (fst (upsert "k3x9m" Samples.today MoreSamples.editing)))
  = ids MoreSamples.editing.
Proof.
  apply (proj1 (proj2 (@update_replaces_in_place MoreSamples.editing "k3x9m"
                         Samples.today "k3x9b" eq_refl
                         ltac:(repeat split; discriminate) eq_refl
                         ltac:(discriminate) (or_intror eq_refl)))).
Defined.

(** X12: with write capability and a confirmed dialog, delete keeps
    exactly the records whose id differs from the one given, in their
    order, and leaves the form and the open edit alone; when the ids are
    pairwise distinct and the id occurs, the collection shrinks by one;
    when it does not occur, the collection is unchanged.  A declined
    dialog changes nothing. *)
Theorem delete_removes_the_matching_record :
  forall (st : State) (id0 : string),
    canEdit st = true ->
    let after := fst (remove true id0 st) in
    employees after = filter (fun x => negb (String.eqb (id x) id0)) (employees st)
    /\ (forall e, In e (employees after) <-> In e (employees st) /\ id e <> id0)
    /\ (NoDup (ids st) -> In id0 (ids st) -> S (total after) = total st)
    /\ (~ In id0 (ids st) -> employees after = employees st)
    /\ form after = form st
    /\ editingId after = editingId st
    /\ remove false id0 st = (st, [Confirm "Delete this employee?"]).
Proof.
  intros st id0 Hedit after. subst after. unfold remove. rewrite Hedit.
  cbn [negb fst setEmployees employees form editingId].
  split; [reflexivity|]. split; [|split; [|split]].
  - intro e. rewrite filter_In, negb_true_iff, String.eqb_neq. tauto.
  - unfold total, ids. cbn [employees]. apply filter_out_one.
  - unfold ids. apply filter_out_absent.
  - auto.
Qed.

Lemma delete_removes_the_matching_record_witness :
  employees (fst (remove true "k3x9a" Samples.adminState))
  = filter (fun x => negb (String.eqb (id x) "k3x9a")) (employees Samples.adminState).
Proof.
  apply (proj1 (@delete_removes_the_matching_record Samples.adminState "k3x9a"
                  eq_refl)).
Defined.

(** X13: after an accepted submit the form is empty again, so submitting
    once more right away is rejected with the validation alert and
    changes nothing: a double submit does not store the draft twice. *)
Theorem second_submit_is_rejected :
  forall (st : State) (fresh today fresh' today' : string),
    canEdit st = true ->
    filledIn (form st) ->
    let once := fst (upsert fresh today st) in
    upsert fresh' today' once = (once, [PreventDefault; validationAlert]).
Proof.
  intros st fresh today fresh' today' Hedit Hfilled once. subst once.
  apply filledIn_valid in Hfilled.
  rewrite (upsert_accepted fresh today st Hedit Hfilled).
  cbn [fst]. unfold upsert at 1.
  assert (R : canEdit
                (setForm (emptyForm today)
                   (setEditingId None
                      match editingId st with
                      | Some i =>
                          if isEmpty i
                          then setEmployees
                                 (fun prev => newEmployee fresh (form st) :: prev) st
                          else setEmployees
                                 (map (fun x => if String.eqb (id x) i
                                                then merge x (form st) else x)) st
                      | None => setEmployees
                                  (fun prev => newEmployee fresh (form st) :: prev) st
                      end)) = true).
  { destruct (editingId st) as [i|]; [destruct (isEmpty i)|]; exact Hedit. }
  rewrite R. reflexivity.
Qed.

Lemma second_submit_is_rejected_witness :
  upsert "k3x9n" Samples.today (fst (upsert "k3x9m" Samples.today MoreSamples.adding))
  = (fst (upsert "k3x9m" Samples.today MoreSamples.adding),
     [PreventDefault; validationAlert]).
Proof.
  apply (@second_submit_is_rejected MoreSamples.adding "k3x9m" Samples.today
           "k3x9n" Samples.today eq_refl
           ltac:(repeat split; discriminate)).
Defined.

Lemma startEdit_found (st : State) (e : Employee) :
  NoDup (ids st) -> In e (employees st) ->
  startEdit (id e) st
  = setForm (mkForm (Some (id e)) (base e)) (setEditingId (Some (id e)) st).
Proof.
  intros Hnd He. unfold startEdit.
  destruct (find (fun x => String.eqb (id x) (id e)) (employees st)) as [x|] eqn:F.
  - apply find_some in F as [Hx Hid]. apply String.eqb_eq in Hid.
    now rewrite (same_id_same_record _ _ _ Hnd Hx He Hid).
  - exfalso. apply (find_none _ _ F) in He. now rewrite String.eqb_refl in He.
Qed.

Lemma merge_own_form (e : Employee) : merge e (mkForm (Some (id e)) (base e)) = e.
Proof. destruct e as [i [n c d r [s|] t k h ct [u|]]]; reflexivity. Qed.

(** X14: opening a record for edit and submitting the form as it was
    filled leaves the collection as it was, when the ids are pairwise
    distinct, the id is not empty and the record has its required
    fields. *)
Theorem edit_without_changes_keeps_collection :
  forall (st : State) (e : Employee) (fresh today : string),
    canEdit st = true ->
    NoDup (ids st) ->
    In e (employees st) ->
    id e <> EmptyString ->
    filledIn e ->
    employees (fst (upsert fresh today (startEdit (id e) st))) = employees st.
Proof.
  intros st e fresh today Hedit Hnd He Hne Hfilled.
  rewrite (startEdit_found st e Hnd He).
  rewrite upsert_accepted; [|exact Hedit | now apply filledIn_valid].
  cbn [editingId setForm setEditingId]. unfold isEmpty.
  destruct (String.eqb_spec (id e) EmptyString) as [E|_]; [contradiction|].
  cbn [fst setForm setEditingId setEmployees employees form].
  rewrite <- (map_id (employees st)) at 2. apply map_ext_in. intros x Hx.
  destruct (String.eqb_spec (id x) (id e)) as [E|_]; [|reflexivity].
  rewrite (same_id_same_record _ _ _ Hnd Hx He E). apply merge_own_form.
Qed.

Lemma edit_without_changes_keeps_collection_witness :
  employees (fst (upsert "k3x9m" Samples.today
                    (startEdit (id Samples.ada2) Samples.adminState)))
  = employees Samples.adminState.
Proof.
  apply (@edit_without_changes_keeps_collection Samples.adminState Samples.ada2
           "k3x9m" Samples.today eq_refl).
  - repeat constructor; cbn; intuition discriminate.
  - right. left. reflexivity.
  - discriminate.
  - repeat split; discriminate.
Defined.

(** X15: when a record whose id is not the empty string is opened for
    edit, then deleted, and the form is submitted afterwards, the
    collection is the one the delete left: the deleted record does not
    come back and no record is added. *)
Theorem submit_after_delete_does_not_restore :
  forall (st : State) (i fresh today : string),
    canEdit st = true ->
    i <> EmptyString ->
    In i (ids st) ->
    employees (fst (upsert fresh today (fst (remove true i (startEdit i st)))))
    = filter (fun x => negb (String.eqb (id x) i)) (employees st).
Proof.
  intros st i fresh today Hedit Hne Hin.
  assert (S : exists fm, startEdit i st = setForm fm (setEditingId (Some i) st)).
  { unfold startEdit.
    destruct (find (fun x => String.eqb (id x) i) (employees st)) as [x|] eqn:F.
    - eexists. reflexivity.
    - exfalso. unfold ids in Hin. apply in_map_iff in Hin as [x [Hx Hin]].
      apply (find_none _ _ F) in Hin. rewrite Hx, String.eqb_refl in Hin.
      discriminate. }
  destruct S as [fm ->].
  unfold remove. replace (canEdit (setForm fm (setEditingId (Some i) st))) with true.
  cbn [negb fst]. unfold upsert.
  replace (canEdit _) with true by (symmetry; exact Hedit).
  cbn [negb].
  destruct (invalid _); [reflexivity|].
  cbn [editingId setEmployees setForm setEditingId]. unfold isEmpty.
  destruct (String.eqb_spec i EmptyString) as [E|_]; [contradiction|].
  cbn [fst employees setEmployees setForm setEditingId form].
  apply map_unmatched. intros x Hx. apply filter_In in Hx as [_ Hx].
  apply negb_true_iff in Hx. now apply String.eqb_neq.
Qed.

Lemma submit_after_delete_does_not_restore_witness :
  employees (fst (upsert "k3x9m" Samples.today
                    (fst (remove true "k3x9a" (startEdit "k3x9a" Samples.adminState)))))
  = filter (fun x => negb (String.eqb (id x) "k3x9a")) (employees Samples.adminState).
Proof.
  apply (@submit_after_delete_does_not_restore Samples.adminState "k3x9a" "k3x9m"
           Samples.today eq_refl ltac:(discriminate)).
  left. reflexivity.
Defined.

(** ** Runs of the component *)

Lemma applyEdit_carriedId (f : FieldEdit) (fm : Form) :
  carriedId (applyEdit f fm) = carriedId fm.
Proof. now destruct f. Qed.

Lemma NoDup_ids_filter (id0 : string) (l : list Employee) :
  NoDup (map id l) ->
  NoDup (map id (filter (fun x => negb (String.eqb (id x) id0)) l)).
Proof. intro H. rewrite ids_filter. now apply NoDup_filter. Qed.

Lemma step_consistent (a : Action) (st : State) :
  consistent st -> freshFor st a -> consistent (step a st).
Proof.
  unfold consistent, ids. intros (Hform & Hopen & Hnd & Hne) Hfresh.
  destruct a as [today|id0|confirmed id0|fresh today|f|r|q' d r s c k dir];
    cbn [step].
  - (* startAdd *) cbn. repeat split; auto. discriminate.
  - (* startEdit *) unfold startEdit.
    destruct (find (fun x => String.eqb (id x) id0) (employees st)) as [e|] eqn:F;
      [|now repeat split].
    apply find_some in F as [He Hid]. apply String.eqb_eq in Hid.
    cbn. repeat split; auto; [congruence|].
    intro E. inversion E; subst. apply Hne. rewrite <- H0. now apply in_map.
  - (* remove *) unfold remove.
    destruct (negb (canEdit st)); [now repeat split|].
    destruct confirmed; [|now repeat split].
    cbn. repeat split; auto.
    + now apply NoDup_ids_filter.
    + rewrite ids_filter, filter_In. tauto.
  - (* upsert *) unfold upsert.
    destruct (negb (canEdit st)); [now repeat split|].
    destruct (invalid (form st)); [now repeat split|].
    destruct Hfresh as [Hf Hnew].
    destruct (editingId st) as [i|] eqn:Hi.
    + unfold isEmpty. destruct (String.eqb_spec i EmptyString) as [E|_];
        [subst i; contradiction|].
      assert (M : map id (map (fun x => if String.eqb (id x) i
                                        then merge x (form st) else x)
                              (employees st))
                  = map id (employees st)).
      { rewrite map_map. apply map_ext. intro x.
        destruct (String.eqb_spec (id x) i) as [E|_]; [|reflexivity].
        unfold merge. cbn [id]. now rewrite Hform. }
      cbn. rewrite M. repeat split; auto; discriminate.
    + unfold newEmployee. rewrite Hform. cbn. repeat split; auto; try discriminate.
      * now constructor.
      * intros [E|E]; [now apply Hf | now apply Hne].
  - (* an input of the form *) cbn. rewrite applyEdit_carriedId. now repeat split.
  - (* the role switch *) cbn. now repeat split.
  - (* search, selects, sort *) cbn. now repeat split.
Qed.

(** X16: from a state in which the form carries the id under edit, no
    edit is open on the empty id, and the ids are pairwise distinct and
    not empty, every sequence of actions whose generated ids are new and
    not empty leads to a state with the same four properties. *)
Theorem runs_keep_ids_distinct :
  forall (actions : list Action) (st : State),
    consistent st ->
    freshAlong st actions ->
    consistent (run actions st).
Proof.
  induction actions as [|a rest IH]; intros st Hst Hfresh; [exact Hst|].
  destruct Hfresh as [Ha Hrest]. cbn [run fold_left].
  apply IH; [now apply step_consistent | exact Hrest].
Qed.

Lemma runs_keep_ids_distinct_witness :
  consistent (run MoreSamples.session Samples.adminState).
Proof.
  apply (@runs_keep_ids_distinct MoreSamples.session Samples.adminState).
  - unfold consistent. cbn. repeat split; try discriminate.
    + repeat constructor; cbn; intuition discriminate.
    + intuition discriminate.
  - cbn. repeat split; try discriminate; intuition discriminate.
Defined.

Lemma step_as_viewer (a : Action) (st : State) :
  userRole st = viewer ->
  match a with act_setUserRole _ => False | _ => True end ->
  userRole (step a st) = viewer /\ employees (step a st) = employees st.
Proof.
  intros Hrole Hkeep.
  destruct a as [today|id0|confirmed id0|fresh today|f|r|q' d r s c k dir];
    cbn [step]; try contradiction.
  - now split.
  - unfold startEdit. now destruct (find _ _).
  - unfold remove, canEdit. rewrite Hrole. now split.
  - unfold upsert, canEdit. rewrite Hrole. now split.
  - now split.
  - now split.
Qed.

(** X17: while the role is viewer and is not switched, no sequence of
    actions changes the collection. *)
Theorem viewer_runs_never_change_the_collection :
  forall (actions : list Action) (st : State),
    userRole st = viewer ->
    keepsRole actions ->
    employees (run actions st) = employees st
    /\ userRole (run actions st) = viewer.
Proof.
  induction actions as [|a rest IH]; intros st Hrole Hkeep; [now split|].
  inversion Hkeep as [|a' rest' Ha Hrest]; subst.
  destruct (step_as_viewer a st Hrole Ha) as [Hrole' Hsame].
  cbn [run fold_left]. destruct (IH (step a st) Hrole' Hrest) as [He Hr].
  unfold run in He, Hr. rewrite He, Hr. now split.
Qed.

Lemma viewer_runs_never_change_the_collection_witness :
  employees (run MoreSamples.session Samples.viewerState)
  = employees Samples.viewerState.
Proof.
  apply (proj1 (@viewer_runs_never_change_the_collection MoreSamples.session
                  Samples.viewerState eq_refl
                  ltac:(repeat constructor))).
Defined.

(** ** Storage *)

(** X18: a value saved under a key loads back from that key, whenever the
    platform parses the text it wrote for the value and that text is not
    empty; what is stored under any other key loads as before. *)
Theorem saved_value_loads_back :
  forall (JSON_parse : string -> option json) (JSON_stringify : json -> string)
         (ls : Storage) (key : string) (value fallback : json),
    JSON_parse (JSON_stringify value) = Some value ->
    JSON_stringify value <> EmptyString ->
    let ls' := perform (saveJSON JSON_stringify key value) ls in
    loadJSON JSON_parse ls' key fallback = value
    /\ (forall other fallback',
          other <> key ->
          loadJSON JSON_parse ls' other fallback'
          = loadJSON JSON_parse ls other fallback').
Proof.
  intros parse stringify ls key value fallback Hparse Hne ls'. subst ls'.
  unfold saveJSON, perform, loadJSON, setItem. cbn [fold_left]. split.
  - rewrite String.eqb_refl, Hparse.
    destruct (String.eqb_spec (stringify value) EmptyString); [contradiction|reflexivity].
  - intros other fallback' Hother.
    destruct (String.eqb_spec other key); [contradiction|reflexivity].
Qed.

Lemma saved_value_loads_back_witness :
  loadJSON MoreSamples.JSON_parse
    (perform (saveJSON Host.JSON_stringify LS_KEYS.theme (JBool true))
             (Samples.storing "null"))
    LS_KEYS.theme (JBool false)
  = JBool true.
Proof.
  apply (proj1 (@saved_value_loads_back MoreSamples.JSON_parse Host.JSON_stringify
                  (Samples.storing "null") LS_KEYS.theme (JBool true) (JBool false)
                  eq_refl ltac:(discriminate))).
Defined.

Lemma filter_all (T : Type) (p : T -> bool) (l : list T) :
  (forall x, In x l -> p x = true) -> filter p l = l.
Proof.
  induction l as [|x l IH]; intro H; [reflexivity|].
  cbn [filter]. rewrite (H x (or_introl eq_refl)). f_equal.
  apply IH. intros y Hy. apply H. now right.
Qed.

(** X19: after the collection has been persisted, the next start loads
    exactly its records, in order, and writes nothing, if the collection
    is not empty; an empty collection does not survive: the seed is
    installed in its place.  (The platform is assumed to parse the text it
    wrote.) *)
Theorem persisted_collection_reloads_unless_empty :
  forall (JSON_parse : string -> option json) (JSON_stringify : json -> string)
         (seed : list Employee) (ls : Storage) (st : State),
    let value := JArr (map Employee_toJSON (employees st)) in
    JSON_parse (JSON_stringify value) = Some value ->
    JSON_stringify value <> EmptyString ->
    employees_init JSON_parse JSON_stringify seed
      (perform (persistEmployees JSON_stringify st) ls)
    = match employees st with
      | [] => (Normal (seed_json seed),
               saveJSON JSON_stringify LS_KEYS.employees (JArr (seed_json seed)))
      | _ :: _ => (Normal (map Employee_toJSON (employees st)), [])
      end.
Proof.
  intros parse stringify seed ls st value Hparse Hne.
  rewrite employees_init_cases.
  unfold persistEmployees. fold value.
  replace (loadJSON parse (perform (saveJSON stringify LS_KEYS.employees value) ls)
             LS_KEYS.employees (JArr []))
    with value.
  - subst value. destruct (employees st) as [|e es] eqn:E; [reflexivity|].
    cbn [lacksLength map filter_of]. do 2 f_equal.
    apply filter_all. intros x Hx.
    change (Employee_toJSON e :: map Employee_toJSON es)
      with (map Employee_toJSON (e :: es)) in Hx.
    apply in_map_iff in Hx as [y [<- _]]. apply isEmployee_of_Employee.
  - symmetry. unfold saveJSON, perform, loadJSON, setItem. cbn [fold_left].
    rewrite String.eqb_refl, Hparse.
    destruct (String.eqb_spec (stringify value) EmptyString); [contradiction|reflexivity].
Qed.

Lemma persisted_collection_reloads_unless_empty_witness :
  employees_init MoreSamples.JSON_parse Host.JSON_stringify Samples.seed
    (perform (persistEmployees Host.JSON_stringify Samples.adminState)
             (Samples.storing "null"))
  = (Normal (map Employee_toJSON (employees Samples.adminState)), []).
Proof.
  apply (@persisted_collection_reloads_unless_empty MoreSamples.JSON_parse
           Host.JSON_stringify Samples.seed (Samples.storing "null")
           Samples.adminState);
    [vm_compute; reflexivity | vm_compute; discriminate].
Defined.

Lemma typeof_string_spec (v : option json) :
  typeof_string v = true <-> exists s, v = Some (JStr s).
Proof.
  destruct v as [[| | |s| |]|]; cbn; split; try discriminate;
    try (intros [s' H]; discriminate); eauto.
Qed.

Lemma typeof_object_spec (v : option json) :
  typeof_object v = true
  <-> v = Some JNull \/ (exists items, v = Some (JArr items))
      \/ (exists props, v = Some (JObj props)).
Proof.
  destruct v as [[|b|n|s|items|props]|]; cbn; split; try discriminate; eauto;
    intros [H|[[y H]|[y H]]]; discriminate.
Qed.

(** X20: the guard accepts a value exactly when it is an object (not
    null, not an array, not a primitive) whose id, name, employeeId,
    department, role, status, contractType and hireDate are strings and
    whose contact has the type of an object: an object, an array or
    null. *)
Theorem isEmployee_accepts_objects_with_string_fields :
  forall v : json,
    isEmployee v = true
    <-> exists props,
          v = JObj props
          /\ (forall k,
                In k ["id"; "name"; "employeeId"; "department"; "role"; "status";
                      "contractType"; "hireDate"] ->
                exists s, getOwn k props = Some (JStr s))
          /\ (getOwn "contact" props = Some JNull
              \/ (exists items, getOwn "contact" props = Some (JArr items))
              \/ (exists inner, getOwn "contact" props = Some (JObj inner))).
Proof.
  intro v. split.
  - destruct v as [|b|x|s|items|props]; unfold isEmployee; cbn;
      try discriminate;
      try (destruct b; discriminate);
      try (destruct (negb (Qeq_bool x 0)); discriminate);
      try (destruct (negb (s =? EmptyString)%string); discriminate).
    rewrite !andb_true_iff, !typeof_string_spec, typeof_object_spec.
    intros ((((((((H1 & H2) & H3) & H4) & H5) & H6) & H7) & H8) & H9).
    exists props. split; [reflexivity|]. split; [|exact H9].
    intros k Hk. cbn in Hk.
    repeat (destruct Hk as [<-|Hk]; [assumption|]). contradiction.
  - intros [props [-> [Hs Hc]]]. unfold isEmployee. cbn.
    rewrite !andb_true_iff, !typeof_string_spec, typeof_object_spec.
    repeat split; try exact Hc; apply Hs; cbn; tauto.
Qed.

(** ** Export and dates *)

Lemma append_inv_tail (a b t : string) : (a ++ t = b ++ t)%string -> a = b.
Proof.
  intro H.
  assert (L : forall x y, list_ascii_of_string (x ++ y)
                          = (list_ascii_of_string x ++ list_ascii_of_string y)%list).
  { induction x as [|c x IH]; intro y; [reflexivity|]. cbn. now rewrite IH. }
  apply (f_equal list_ascii_of_string) in H. rewrite !L in H.
  apply app_inv_tail in H.
  rewrite <- (string_of_list_ascii_of_string a), <- (string_of_list_ascii_of_string b).
  now rewrite H.
Qed.

Lemma doubleQuotes_inj (a b : string) : doubleQuotes a = doubleQuotes b -> a = b.
Proof.
  revert b. induction a as [|c a IH]; intros [|d b]; cbn [doubleQuotes].
  - reflexivity.
  - destruct (Ascii.eqb d dquote); discriminate.
  - destruct (Ascii.eqb c dquote); discriminate.
  - destruct (Ascii.eqb_spec c dquote) as [->|Hc],
             (Ascii.eqb_spec d dquote) as [->|Hd]; intro H; inversion H; subst.
    + f_equal. now apply IH.
    + contradiction.
    + contradiction.
    + f_equal. now apply IH.
Qed.

(** X21: quoting a CSV field loses nothing: two values have the same
    quoted text only if they are equal; an undefined value is written like
    the empty one. *)
Theorem esc_loses_nothing :
  forall a b : string,
    (esc (Some a) = esc (Some b) <-> a = b)
    /\ esc None = esc (Some EmptyString).
Proof.
  intros a b. split; [|reflexivity]. split; [|now intros ->].
  unfold esc. intro H. inversion H as [H'].
  apply append_inv_tail in H'. now apply doubleQuotes_inj.
Qed.

(** X22: for two valid dates at most 2^53 milliseconds apart the day
    difference is the whole number nearest to the exact difference in
    days, a half rounding up; it is 0 between a valid date and itself; for
    an invalid date there is none. *)
Theorem daysBetween_is_the_nearest_whole_day :
  forall (Date_getTime : string -> option Z) (aIso bIso : string),
    (forall a b,
        Date_getTime aIso = Some a ->
        Date_getTime bIso = Some b ->
        Z.abs (b - a) <= 2 ^ 53 ->
        exists days,
          daysBetween Date_getTime aIso bIso = Some days
          /\ (2 * days - 1) * msPerDay <= 2 * (b - a) < (2 * days + 1) * msPerDay)
    /\ (forall a, Date_getTime aIso = Some a ->
                  daysBetween Date_getTime aIso aIso = Some 0)
    /\ (Date_getTime aIso = None \/ Date_getTime bIso = None ->
        daysBetween Date_getTime aIso bIso = None).
Proof.
  intros getTime aIso bIso. split; [|split].
  - intros a b Ha Hb _. unfold daysBetween. rewrite Ha, Hb.
    eexists. split; [reflexivity|].
    unfold Math_round_div, msPerDay.
    Z.to_euclidean_division_equations. lia.
  - intros a Ha. unfold daysBetween. rewrite Ha.
    replace (a - a) with 0 by lia. reflexivity.
  - intros [H|H]; unfold daysBetween; rewrite H; [reflexivity|].
    now destruct (getTime aIso).
Qed.

Lemma daysBetween_is_the_nearest_whole_day_witness :
  exists days,
    daysBetween Host.Date_getTime (hireDate Samples.ada1) Samples.nowIso = Some days
    /\ (2 * days - 1) * msPerDay <= 2 * (1793611800000 - 1792454400000)
        < (2 * days + 1) * msPerDay.
Proof.
  apply (proj1 (daysBetween_is_the_nearest_whole_day Host.Date_getTime
                  (hireDate Samples.ada1) Samples.nowIso)
           1792454400000 1793611800000);
    vm_compute; try reflexivity; discriminate.
Defined.

(** ** Opening an edit, and the first start *)

Lemma find_first (T : Type) (p : T -> bool) (l : list T) (e : T) :
  find p l = Some e ->
  exists before after,
    l = (before ++ e :: after)%list
    /\ p e = true
    /\ forall x, In x before -> p x = false.
Proof.
  induction l as [|y l IH]; [discriminate|].
  cbn [find]. destruct (p y) eqn:Hy.
  - intro H. injection H as <-. exists [], l. repeat split; [exact Hy|].
    intros x [].
  - intro H. destruct (IH H) as [before [after [-> [He Hb]]]].
    exists (y :: before), after. repeat split; [exact He|].
    intros x [<-|Hx]; [exact Hy | now apply Hb].
Qed.

(** X23: opening an edit for an id that no record has changes nothing;
    for an id that a record has it opens the edit on that id and copies
    the fields of the first record with that id, in the order of the
    collection, into the form; in both cases the collection is
    untouched. *)
Theorem startEdit_opens_only_known_ids :
  forall (st : State) (id0 : string),
    (~ In id0 (ids st) -> startEdit id0 st = st)
    /\ (In id0 (ids st) ->
        exists (before : list Employee) (e : Employee) (after : list Employee),
          employees st = (before ++ e :: after)%list
          /\ id e = id0
          /\ (forall x, In x before -> id x <> id0)
          /\ editingId (startEdit id0 st) = Some id0
          /\ form (startEdit id0 st) = mkForm (Some id0) (base e))
    /\ employees (startEdit id0 st) = employees st.
Proof.
  intros st id0. unfold startEdit, ids.
  destruct (find (fun x => String.eqb (id x) id0) (employees st)) as [e|] eqn:F.
  - destruct (find_first _ _ F) as [before [after [Hl [He Hb]]]].
    apply String.eqb_eq in He.
    split; [|split; [|reflexivity]].
    + intro Hno. exfalso. apply Hno. rewrite Hl, map_app, in_app_iff.
      right. left. exact He.
    + intros _. exists before, e, after. cbn. rewrite He.
      repeat split; auto.
      intros x Hx. apply String.eqb_neq. now apply Hb.
  - split; [reflexivity|]. split; [|reflexivity].
    intro Hin. apply in_map_iff in Hin as [x [Hx Hin]].
    apply (find_none _ _ F) in Hin. rewrite Hx, String.eqb_refl in Hin.
    discriminate.
Qed.

Lemma startEdit_opens_only_known_ids_witness :
  startEdit "k3x9q" Samples.adminState = Samples.adminState.
Proof.
  apply (proj1 (startEdit_opens_only_known_ids Samples.adminState "k3x9q")).
  cbn. intuition discriminate.
Defined.

(** X24: on a start with nothing stored, the three seed records are
    returned and written to storage; the start after that reads the same
    three records back and writes nothing.  (The platform is assumed to
    parse the text it wrote.) *)
Theorem first_start_installs_the_seed_once :
  forall (JSON_parse : string -> option json) (JSON_stringify : json -> string)
         (uid1 uid2 uid3 ago20 ago120 ago60 : string) (ls : Storage),
    let seed := SEED uid1 uid2 uid3 ago20 ago120 ago60 in
    let text := JSON_stringify (JArr (seed_json seed)) in
    ls LS_KEYS.employees = None ->
    JSON_parse text = Some (JArr (seed_json seed)) ->
    text <> EmptyString ->
    employees_init JSON_parse JSON_stringify seed ls
    = (Normal (seed_json seed), [SetItem LS_KEYS.employees text])
    /\ employees_init JSON_parse JSON_stringify seed
         (perform [SetItem LS_KEYS.employees text] ls)
       = (Normal (seed_json seed), [])
    /\ List.length (seed_json seed) = 3%nat.
Proof.
  intros parse stringify u1 u2 u3 a20 a120 a60 ls seed text Hnone Hparse Hne.
  split; [|split; [|reflexivity]].
  - rewrite employees_init_cases.
    rewrite (loadJSON_fallback parse ls (or_introl Hnone)). reflexivity.
  - rewrite employees_init_cases.
    replace (loadJSON parse (perform [SetItem LS_KEYS.employees text] ls)
               LS_KEYS.employees (JArr []))
      with (JArr (seed_json seed)).
    + cbn [lacksLength seed_json seed SEED map filter_of]. do 2 f_equal.
    + symmetry. unfold perform, loadJSON, setItem. cbn [fold_left].
      rewrite String.eqb_refl, Hparse.
      destruct (String.eqb_spec text EmptyString); [contradiction|reflexivity].
Qed.

Lemma first_start_installs_the_seed_once_witness :
  employees_init (Host.JSON_parse [JArr (seed_json Samples.seed)])
    Host.JSON_stringify Samples.seed (fun _ => None)
  = (Normal (seed_json Samples.seed),
     [SetItem LS_KEYS.employees (Host.JSON_stringify (JArr (seed_json Samples.seed)))]).
Proof.
  apply (proj1 (@first_start_installs_the_seed_once
                  (Host.JSON_parse [JArr (seed_json Samples.seed)])
                  Host.JSON_stringify "u1" "u2" "u3" "2026-10-13T09:30:00.000Z"
                  "2026-07-05T09:30:00.000Z" "2026-09-03T09:30:00.000Z"
                  (fun _ => None) eq_refl
                  ltac:(vm_compute; reflexivity) ltac:(vm_compute; discriminate))).
Defined.
